(** * resorr-swot: the reservoir network builder and the surface-area filter

    A shallow embedding of [src/resorr/generate_network.py] and of the
    checks and the SAR bias correction of [src/sarath_filtering.py].

    Conventions of the embedding:
    - a raster ([xarray.DataArray] with dimensions [(y, x)]) is its two
      coordinate axes and its cell values; a cell is [None] where the
      raster holds NaN (the no-data mask of [masked=True]) and [Some v]
      otherwise;
    - integer positions follow NumPy: position [i] on an axis of size [n]
      is valid when [-n <= i < n], negative positions count from the end,
      anything else raises [IndexError];
    - floating-point coordinates and areas are rationals ([Q]); NaN inputs
      in the tables are outside the model;
    - a Python exception that leaves a function is the [Raise] result. *)

From Stdlib Require Import NArith ZArith QArith Qabs List String Bool Lia.
From Stdlib Require DecimalString DecimalN.
Import ListNotations.

Set Implicit Arguments.

(** ** Exceptions and results *)

Inductive Exception : Type :=
| IndexError
| KeyError
| AssertionError (msg : string).

Inductive Result (A : Type) : Type :=
| Ok (a : A)
| Raise (e : Exception).

Arguments Ok {A} a.
Arguments Raise {A} e.

Definition bind {A B : Type} (r : Result A) (k : A -> Result B) : Result B :=
  match r with
  | Ok a => k a
  | Raise e => Raise e
  end.

Notation "x <- r ;; k" := (bind r (fun x => k))
  (at level 61, r at next level, right associativity).

(** Python's [assert cond, msg]. *)
Definition assert_ (cond : bool) (msg : string) : Result unit :=
  if cond then Ok tt else Raise (AssertionError msg).

(** ** sarath_filtering.py *)

Module SarathFiltering.

Open Scope string_scope.

(** [s in satellites] on a list of strings. *)
Definition py_in (s : string) (l : list string) : bool :=
  existsb (String.eqb s) l.

Section Filtering.

Variable Out : Type.
(** Everything [filtering] does after its two assertions (lines 21-177):
    reading the tables and the three corrections. *)
Variable process : list string -> Result Out.

(** Lines 17-19, followed by the rest of the function. *)
Definition filtering (satellites : list string) : Result Out :=
  _ <- assert_ (py_in "s1" satellites || py_in "sar" satellites)
               "SAR data is required";;
  _ <- assert_ (py_in "l8" satellites || py_in "l9" satellites
                || py_in "s2" satellites)
               "Optical data is required";;
  process satellites.

End Filtering.

Open Scope Q_scope.

(** One row of [merged_pdf_filt2]: the optical and SAR areas and their
    difference, the [deviations] column computed on line 99. *)
Record Row : Type := mkRow {
  WA_Optical : Q;
  WA_SAR : Q;
  deviations : Q
}.

(** Line 99. *)
Definition with_deviations (opt sar : Q) : Row :=
  mkRow opt sar (opt - sar).

(** Line 108: [(-res_nom_SA*filt_2_thresh/100, res_nom_SA*filt_2_thresh/100)]. *)
Definition filt2_thresh_values (res_nom_SA filt_2_thresh : Q) : Q * Q :=
  ((- res_nom_SA) * filt_2_thresh / 100, res_nom_SA * filt_2_thresh / 100).

Definition Qlt_bool (a b : Q) : bool := negb (Qle_bool b a).

(** Line 114: the mask of rows outside the threshold band. *)
Definition outliers (res_nom_SA filt_2_thresh : Q) (r : Row) : bool :=
  let th := filt2_thresh_values res_nom_SA filt_2_thresh in
  Qlt_bool (deviations r) (fst th) || Qlt_bool (snd th) (deviations r).

(** Line 123: [np.abs(dev / dev)], for a deviation that is not zero; at
    zero NumPy gives NaN, which the rationals do not have. *)
Definition dev_sign (dev : Q) : Q := Qabs (dev / dev).

(** Lines 119-124, as the exact value of the formula; the rounding of
    the floating-point operations is not represented. *)
Definition mod_val (res_nom_SA filt_2_thresh : Q) (r : Row) : Q :=
  let opt_val := WA_Optical r in
  let opt_sar_dev := deviations r in
  opt_val + dev_sign (deviations r) * res_nom_SA * filt_2_thresh / 100
  - opt_sar_dev.

(** Lines 114-126: every outlier row gets its optical value replaced. *)
Definition filter2 (res_nom_SA filt_2_thresh : Q) (rows : list Row)
  : list Row :=
  map (fun r =>
         if outliers res_nom_SA filt_2_thresh r
         then mkRow (mod_val res_nom_SA filt_2_thresh r) (WA_SAR r)
                    (deviations r)
         else r)
      rows.

(** The replacement as the specification words it: the correction carries
    the sign of the deviation. *)
Definition sign (dev : Q) : Q :=
  if Qlt_bool dev 0 then -1 else if Qlt_bool 0 dev then 1 else 0.

Definition mod_val_signed (res_nom_SA filt_2_thresh : Q) (r : Row) : Q :=
  WA_Optical r + sign (deviations r) * res_nom_SA * filt_2_thresh / 100
  - deviations r.

End SarathFiltering.

(** ** resorr/generate_network.py *)

Module GenerateNetwork.

Open Scope Z_scope.

Definition len {A : Type} (l : list A) : Z := Z.of_nat (List.length l).

(** *** Rasters *)

(** A single-band raster: dimensions [(y, x)], one coordinate axis per
    dimension, and the cell values, read at [values row column] for
    positions inside the shape. *)
Record DataArray (A : Type) : Type := mkDataArray {
  ys : list Q;
  xs : list Q;
  values : Z -> Z -> option A
}.

Definition size_y {A} (d : DataArray A) : Z := len (ys d).
Definition size_x {A} (d : DataArray A) : Z := len (xs d).

(** NumPy's reading of an integer position on an axis of size [n]. *)
Definition norm_index (n i : Z) : option Z :=
  if (0 <=? i) && (i <? n) then Some i
  else if (- n <=? i) && (i <? 0) then Some (i + n)
  else None.

(** [d.isel(x=x, y=y)]. *)
Definition isel {A} (d : DataArray A) (x y : Z) : Result (option A) :=
  match norm_index (size_y d) y, norm_index (size_x d) x with
  | Some j, Some i => Ok (values d j i)
  | _, _ => Raise IndexError
  end.

(** [xr.full_like(d, np.nan)]. *)
Definition full_like_nan {A B} (d : DataArray A) : DataArray B :=
  mkDataArray (ys d) (xs d) (fun _ _ => None).

(** [d[y, x] = v]. *)
Definition setitem {A} (d : DataArray A) (y x : Z) (v : A)
  : Result (DataArray A) :=
  match norm_index (size_y d) y, norm_index (size_x d) x with
  | Some j, Some i =>
      Ok (mkDataArray (ys d) (xs d)
            (fun j' i' => if (j' =? j) && (i' =? i) then Some v
                          else values d j' i'))
  | _, _ => Raise IndexError
  end.

(** A raster written row by row, for concrete inputs. *)
Definition of_rows {A} (ycoords xcoords : list Q) (rows : list (list (option A)))
  : DataArray A :=
  mkDataArray ycoords xcoords
    (fun j i => nth (Z.to_nat i) (nth (Z.to_nat j) rows []) None).

(** *** The nearest indexer *)

Definition dist (a b : Q) : Q := Qabs (a - b).

(** [a] is a better match for [target] than [b]: strictly closer, or as
    close and the larger label. *)
Definition closer (target a b : Q) : bool :=
  negb (Qle_bool (dist b target) (dist a target))
  || (Qeq_bool (dist a target) (dist b target) && negb (Qle_bool a b)).

Fixpoint nearest_from (index : list Q) (target : Q) (pos best : Z) (bestv : Q)
  : Z :=
  match index with
  | [] => best
  | a :: rest =>
      if closer target a bestv
      then nearest_from rest target (pos + 1) pos a
      else nearest_from rest target (pos + 1) best bestv
  end.

(** [index.get_indexer([target], method="nearest")[0]] of pandas on a
    monotonic axis: the position of the closest label, ties going to the
    larger label, and [-1] when the axis is empty. *)
Definition get_indexer (index : list Q) (target : Q) : Z :=
  match index with
  | [] => -1
  | a :: rest => nearest_from rest target 1 0 a
  end.

(** [d.sel(x=x, y=y, method='nearest')]: xarray raises [KeyError] when the
    indexer finds no position. *)
Definition sel_nearest {A} (d : DataArray A) (x y : Q) : Result (option A) :=
  let i := get_indexer (xs d) x in
  let j := get_indexer (ys d) y in
  if (i <? 0) || (j <? 0) then Raise KeyError else isel d i j.

(** *** Stations and the reservoir-location raster *)

(** A row of the station table; its id is its position in the table. *)
Record Station : Type := mkStation {
  name : string;
  lon : Q;
  lat : Q
}.

(** Lines 78-85, for the rows from id [resid] on. *)
Fixpoint snap_stations (raster : DataArray Z) (resid : Z) (rows : list Station)
  : Result (DataArray Z) :=
  match rows with
  | [] => Ok raster
  | row :: rest =>
      let rast_lat := get_indexer (ys raster) (lat row) in
      let rast_lon := get_indexer (xs raster) (lon row) in
      raster' <- setitem raster rast_lat rast_lon resid;;
      snap_stations raster' (resid + 1) rest
  end.

(** Lines 77-85. *)
Definition reservoir_location_raster (band : DataArray Z)
  (reservoirs : list Station) : Result (DataArray Z) :=
  snap_stations (full_like_nan band) 0 reservoirs.

(** *** The graph *)

Record NodeAttrs : Type := mkNodeAttrs {
  attr_x : Q;
  attr_y : Q;
  attr_name : string
}.

(** A directed graph: node ids with their attributes once set, and the
    edges in the order they were added. *)
Record GeoDiGraph : Type := mkGraph {
  nodes : list (Z * option NodeAttrs);
  edges : list (Z * Z)
}.

Definition has_node (G : GeoDiGraph) (n : Z) : bool :=
  existsb (fun p => fst p =? n) (nodes G).

Definition add_node (G : GeoDiGraph) (n : Z) : GeoDiGraph :=
  if has_node G n then G else mkGraph (nodes G ++ [(n, None)]) (edges G).

Definition add_nodes_from (G : GeoDiGraph) (ids : list Z) : GeoDiGraph :=
  fold_left add_node ids G.

Definition set_node_attributes (G : GeoDiGraph) (n : Z) (a : NodeAttrs)
  : GeoDiGraph :=
  mkGraph (map (fun p => if fst p =? n then (n, Some a) else p) (nodes G))
          (edges G).

Definition has_edge (G : GeoDiGraph) (u v : Z) : bool :=
  existsb (fun e => (fst e =? u) && (snd e =? v)) (edges G).

(** [G.add_edge(u, v)]: missing endpoints become nodes, an edge already
    present stays single. *)
Definition add_edge (G : GeoDiGraph) (u v : Z) : GeoDiGraph :=
  let G' := add_node (add_node G u) v in
  if has_edge G' u v then G' else mkGraph (nodes G') (edges G' ++ [(u, v)]).

Definition out_edges (G : GeoDiGraph) (u : Z) : list (Z * Z) :=
  filter (fun e => fst e =? u) (edges G).

Definition in_edges (G : GeoDiGraph) (v : Z) : list (Z * Z) :=
  filter (fun e => snd e =? v) (edges G).

Definition out_degree (G : GeoDiGraph) (u : Z) : nat := List.length (out_edges G u).
Definition in_degree (G : GeoDiGraph) (v : Z) : nat := List.length (in_edges G v).

(** *** Tracing *)

(** Lines 91-100: direction code to [(row offset, column offset)];
    [None] is the [KeyError] of the dictionary lookup. *)
Definition operations (code : Z) : option (Z * Z) :=
  match code with
  | 1 => Some (-1, 0)
  | 2 => Some (-1, 1)
  | 3 => Some (0, 1)
  | 4 => Some (1, 1)
  | 5 => Some (1, 0)
  | 6 => Some (1, -1)
  | 7 => Some (0, -1)
  | 8 => Some (-1, -1)
  | _ => None
  end.

(** The variables of the [while] loop. *)
Record TraceState : Type := mkState {
  idxx : Z;
  idxy : Z;
  visited : list (Z * Z);
  current_pix : Z
}.

(** How a trace ends when it ends without an exception. *)
Inductive Exit : Type :=
| no_edge
| edge_to (resid : Z).

Inductive Step : Type :=
| Continue (s : TraceState)
| Break (visited : list (Z * Z)) (e : Exit)
| Throw (visited : list (Z * Z)) (ex : Exception).

(** [(x, y) in visited]. *)
Definition in_visited (c : Z * Z) (visited : list (Z * Z)) : bool :=
  existsb (fun v => (fst v =? fst c) && (snd v =? snd c)) visited.

(** Lines 116-123 and 149 for one station: its attributes are set, and
    its edge is added when the trace found a reservoir. *)
Definition after_station (G : GeoDiGraph) (node : Z) (row : Station) (e : Exit)
  : GeoDiGraph :=
  let G1 := set_node_attributes G node
              (mkNodeAttrs (lon row) (lat row) (name row)) in
  match e with
  | edge_to any_reservoir => add_edge G1 node any_reservoir
  | no_edge => G1
  end.

Section Trace.

Variable band_vicfmt : DataArray Z.
Variable reservoir_location : DataArray Z.

(** One pass through the body of the loop, lines 128-161. The lookup of
    line 139 stands outside the [try]; the [except IndexError] of line
    159 covers the lookup of line 146 only. *)
Definition step (s : TraceState) : Step :=
  match operations (current_pix s) with
  | None => Throw (visited s) KeyError
  | Some (dy, dx) =>
      let new_idxy := idxy s + dy in
      let new_idxx := idxx s + dx in
      if in_visited (new_idxx, new_idxy) (visited s)
      then Break (visited s) no_edge
      else
        let visited' := visited s ++ [(new_idxx, new_idxy)] in
        match isel band_vicfmt new_idxx new_idxy with
        | Raise ex => Throw visited' ex
        | Ok None => Break visited' no_edge
        | Ok (Some pix) =>
            match isel reservoir_location new_idxx new_idxy with
            | Raise IndexError => Break visited' no_edge
            | Raise ex => Throw visited' ex
            | Ok (Some any_reservoir) => Break visited' (edge_to any_reservoir)
            | Ok None => Continue (mkState new_idxx new_idxy visited' pix)
            end
        end
  end.

(** What a finished trace leaves behind: the passes through the loop
    body, the final [visited] list, and the exit or the exception. *)
Record Trace : Type := mkTrace {
  iterations : nat;
  cells : list (Z * Z);
  outcome : Result Exit
}.

(** The [while not END] loop; [None] when [fuel] passes do not finish it. *)
Fixpoint while_not_END (fuel : nat) (s : TraceState) : option Trace :=
  match fuel with
  | O => None
  | S fuel' =>
      match step s with
      | Continue s' =>
          match while_not_END fuel' s' with
          | Some t => Some (mkTrace (S (iterations t)) (cells t) (outcome t))
          | None => None
          end
      | Break v e => Some (mkTrace 1 v (Ok e))
      | Throw v ex => Some (mkTrace 1 v (Raise ex))
      end
  end.

(** Lines 105-114 and 125-161 for one station. *)
Definition trace_node (fuel : nat) (row : Station) : option Trace :=
  let idxx := get_indexer (xs band_vicfmt) (lon row) in
  let idxy := get_indexer (ys band_vicfmt) (lat row) in
  let visited := [(idxx, idxy)] in
  match isel band_vicfmt idxx idxy with
  | Raise ex => Some (mkTrace 0 visited (Raise ex))
  | Ok None => Some (mkTrace 0 visited (Ok no_edge))
  | Ok (Some pix) => while_not_END fuel (mkState idxx idxy visited pix)
  end.

(** Lines 102-161: the stations from id [node] on, in table order. *)
Fixpoint trace_nodes (fuel : nat) (G : GeoDiGraph) (node : Z)
  (rows : list Station) : option (Result GeoDiGraph) :=
  match rows with
  | [] => Some (Ok G)
  | row :: rest =>
      match trace_node fuel row with
      | None => None
      | Some t =>
          match outcome t with
          | Raise ex => Some (Raise ex)
          | Ok e => trace_nodes fuel (after_station G node row e) (node + 1) rest
          end
      end
  end.

End Trace.

(** Enough passes for every trace on [band]: four raw positions per cell. *)
Definition trace_fuel {A} (band : DataArray A) : nat :=
  Z.to_nat (4 * size_y band * size_x band).

(** [reservoirs.index]. *)
Definition index_of {A} (rows : list A) : list Z :=
  map Z.of_nat (seq 0 (List.length rows)).

(** *** Elevation *)

(** [gnx.graph_nodes_to_gdf(G)]: one row per node that has attributes. *)
Definition graph_nodes_to_gdf (G : GeoDiGraph) : list (Z * NodeAttrs) :=
  flat_map (fun p => match snd p with
                     | Some a => [(fst p, a)]
                     | None => []
                     end) (nodes G).

(** Line 170, the [apply] over the rows: the elevation column, row by
    row. *)
Fixpoint sample_rows (elev : DataArray Q) (pts : list (Z * NodeAttrs))
  : Result (list (option Q)) :=
  match pts with
  | [] => Ok []
  | (_, a) :: rest =>
      e <- sel_nearest elev (attr_x a) (attr_y a);;
      es <- sample_rows elev rest;;
      Ok (e :: es)
  end.

(** Line 170: [G_gdf_pts[['x', 'y']].apply(...)]. The node table of a
    graph without nodes has no columns, so selecting 'x' and 'y' on it
    raises [KeyError]; a table with rows is sampled row by row. *)
Definition sample_elevation (elev : DataArray Q) (pts : list (Z * NodeAttrs))
  : Result (list (option Q)) :=
  match pts with
  | [] => Raise KeyError
  | _ :: _ => sample_rows elev pts
  end.

(** What a call produces: the returned graph and the elevation column of
    the node table, present when an elevation raster was given. *)
Record Network : Type := mkNetwork {
  graph : GeoDiGraph;
  elevation : option (list (option Q))
}.

(** Lines 68-180, on the opened flow-direction band, the station table and
    the opened elevation raster; an edge's [length] attribute is left out. *)
Definition generate_network (band : DataArray Z) (reservoirs : list Station)
  (elevation_raster : option (DataArray Q)) : option (Result Network) :=
  match reservoir_location_raster band reservoirs with
  | Raise ex => Some (Raise ex)
  | Ok raster =>
      let G := add_nodes_from (mkGraph [] []) (index_of reservoirs) in
      match trace_nodes band raster (trace_fuel band) G 0 reservoirs with
      | None => None
      | Some (Raise ex) => Some (Raise ex)
      | Some (Ok G') =>
          match elevation_raster with
          | None => Some (Ok (mkNetwork G' None))
          | Some elev =>
              Some (col <- sample_elevation elev (graph_nodes_to_gdf G');;
                    Ok (mkNetwork G' (Some col)))
          end
      end
  end.

(** *** Notions used in the statements *)

(** The raw positions [-n .. n-1] of an axis of size [n]. *)
Definition span (n : Z) : list Z :=
  map (fun k => Z.of_nat k - n) (seq 0 (Z.to_nat (2 * n))).

(** [c = (x, y)] is a raw position that a [ny] by [nx] raster accepts. *)
Definition in_box (ny nx : Z) (c : Z * Z) : Prop :=
  - nx <= fst c < nx /\ - ny <= snd c < ny.

(** The invariant of the loop: the visited positions are distinct and
    each was accepted by the flow-direction raster. *)
Definition visited_ok {A} (band : DataArray A) (s : TraceState) : Prop :=
  NoDup (visited s)
  /\ forall c, In c (visited s) -> in_box (size_y band) (size_x band) c.

(** The cell a station snaps to, as [(x, y)] positions. *)
Definition snap {A} (band : DataArray A) (row : Station) : Z * Z :=
  (get_indexer (xs band) (lon row), get_indexer (ys band) (lat row)).

(** [reaches band raster s s']: the loop started in [s] arrives in [s']
    after some passes, none of which ends it. *)
Inductive reaches (band raster : DataArray Z) : TraceState -> TraceState -> Prop :=
| reaches_here (s : TraceState) : reaches band raster s s
| reaches_next (s s' s'' : TraceState) :
    step band raster s = Continue s' ->
    reaches band raster s' s'' ->
    reaches band raster s s''.

(** The node entries of the stations from id [node] on, as
    [add_nodes_from] leaves them. *)
Fixpoint pending_nodes (node : Z) (rows : list Station)
  : list (Z * option NodeAttrs) :=
  match rows with
  | [] => []
  | _ :: rest => (node, None) :: pending_nodes (node + 1) rest
  end.

(** The rows of the node table for the stations from id [node] on: the
    id, and the longitude, latitude and name of the station. *)
Fixpoint station_nodes (node : Z) (rows : list Station) : list (Z * NodeAttrs) :=
  match rows with
  | [] => []
  | row :: rest =>
      (node, mkNodeAttrs (lon row) (lat row) (name row))
      :: station_nodes (node + 1) rest
  end.

(** A row of the node table as the entry of a node with attributes. *)
Definition with_attrs (p : Z * NodeAttrs) : Z * option NodeAttrs :=
  (fst p, Some (snd p)).

(** The state in which the loop of a station starts, when its starting
    cell holds the direction code [pix]. *)
Definition start_state {A} (band : DataArray A) (row : Station) (pix : Z)
  : TraceState :=
  mkState (fst (snap band row)) (snd (snap band row)) [snap band row] pix.

End GenerateNetwork.

(** ** Small inputs *)

Module Inputs.

Import GenerateNetwork.
Open Scope Z_scope.

(** The coordinates 0, 1, ..., n-1 along an axis. *)
Definition axis (n : nat) : list Q :=
  map (fun k => inject_Z (Z.of_nat k)) (seq 0 n).

(** A raster over integer coordinates, from its rows. *)
Definition grid {A} (rows : list (list (option A))) : DataArray A :=
  of_rows (axis (List.length rows)) (axis (List.length (hd [] rows))) rows.

(** A flow-direction raster without no-data cells, from its codes. *)
Definition flow_raster (codes : list (list Z)) : DataArray Z :=
  grid (map (map (@Some Z)) codes).

Definition station (nm : string) (x y : Z) : Station :=
  mkStation nm (inject_Z x) (inject_Z y).

(** The reservoir-location raster of an input on which building it
    raises nothing. *)
Definition raster_of (band : DataArray Z) (reservoirs : list Station)
  : DataArray Z :=
  match reservoir_location_raster band reservoirs with
  | Ok raster => raster
  | Raise _ => full_like_nan band
  end.

(** One row whose two cells flow east. *)
Definition east_row : DataArray Z := flow_raster [[3; 3]].

(** Two rows and two columns, every cell flowing north. *)
Definition north_block : DataArray Z := flow_raster [[1; 1]; [1; 1]].

(** Two rows and two columns: south-east and north-west above, north and
    south-west below. *)
Definition winding : DataArray Z := flow_raster [[4; 8]; [1; 6]].

(** One row whose two cells flow into each other. *)
Definition back_and_forth : DataArray Z := flow_raster [[3; 7]].

(** One row: east, east, no-data. *)
Definition dead_end : DataArray Z := grid [[Some 3; Some 3; None]].

(** One row: east, then a cell with the code 0. *)
Definition with_sink : DataArray Z := flow_raster [[3; 0]].

(** One row: east, west, west. *)
Definition confluence : DataArray Z := flow_raster [[3; 7; 7]].

(** The network of an input on which [generate_network] returns one. *)
Definition network_of (band : DataArray Z) (reservoirs : list Station)
  (elevation_raster : option (DataArray Q)) : Network :=
  match generate_network band reservoirs elevation_raster with
  | Some (Ok net) => net
  | _ => mkNetwork (mkGraph [] []) None
  end.

(** Three stations on [east_row]: the first two nearest to the first
    cell, the third on the second cell. *)
Definition crowded : list Station :=
  [mkStation "A" (1 # 5) 0; mkStation "B" (- (3 # 1)) 0; mkStation "C" 1 0].

(** An elevation raster over the coordinates 10 and 11 on both axes. *)
Definition far_elevation : DataArray Q :=
  of_rows [10 # 1; 11 # 1] [10 # 1; 11 # 1]
    [[Some (100 # 1); Some (200 # 1)]; [Some (300 # 1); Some (400 # 1)]].

(** The point [(x, y)] lies outside the extent of the raster: beyond
    every label of one of the axes, on one side. *)
Definition outside_extent {A} (d : DataArray A) (x y : Q) : bool :=
  let below (q : Q) (axis : list Q) :=
    forallb (fun a => negb (Qle_bool a q)) axis in
  let above (q : Q) (axis : list Q) :=
    forallb (fun a => negb (Qle_bool q a)) axis in
  below x (xs d) || above x (xs d) || below y (ys d) || above y (ys d).

(** The cell [(x, y)] lies inside the shape, counted from zero. *)
Definition inside {A} (d : DataArray A) (c : Z * Z) : bool :=
  (0 <=? fst c) && (fst c <? size_x d) && (0 <=? snd c) && (snd c <? size_y d).

(** Following the direction codes from [c] without leaving the grid
    bounds, the path has stepped outside after at most [n] moves. *)
Fixpoint leaves_grid (band : DataArray Z) (n : nat) (c : Z * Z) : bool :=
  if inside band c then
    match n with
    | O => false
    | S n' =>
        match values band (snd c) (fst c) with
        | Some code =>
            match operations code with
            | Some (dy, dx) => leaves_grid band n' (fst c + dx, snd c + dy)
            | None => false
            end
        | None => false
        end
    end
  else true.

(** All the cells [(x, y)] of a raster. *)
Definition all_cells {A} (d : DataArray A) : list (Z * Z) :=
  list_prod (map Z.of_nat (seq 0 (List.length (xs d))))
            (map Z.of_nat (seq 0 (List.length (ys d)))).

(** Every cell holds one of the codes 1 to 8. *)
Definition all_codes_valid (band : DataArray Z) : bool :=
  forallb (fun c => match values band (snd c) (fst c) with
                    | Some code => (1 <=? code) && (code <=? 8)
                    | None => false
                    end) (all_cells band).

End Inputs.

(** ** sarath_filtering.py: what follows the assertions *)

Module FilteringRun.

Import SarathFiltering.

(** The exceptions of a whole call: those of [Exception], and the two
    that the body of [filtering] raises by itself. *)
Inductive PyException : Type :=
| Builtin (e : Exception)
| ValueError (msg : string)
| UnboundLocalError (var : string).

Inductive Outcome (A : Type) : Type :=
| Returns (a : A)
| Raises (e : PyException).

Arguments Returns {A} a.
Arguments Raises {A} e.

Definition and_then {A B : Type} (o : Outcome A) (k : A -> Outcome B)
  : Outcome B :=
  match o with
  | Returns a => k a
  | Raises e => Raises e
  end.

Notation "x <~ o ;; k" := (and_then o (fun x => k))
  (at level 61, o at next level, right associativity).

(** [pd.concat(objs)] followed by [f]: pandas refuses an empty list. *)
Definition pd_concat {A B : Type} (f : list A -> Outcome B) (objs : list A)
  : Outcome B :=
  match objs with
  | [] => Raises (ValueError "No objects to concatenate")
  | _ :: _ => f objs
  end.

Section Run.

(** The tables read from disk, the merged table of one reservoir and
    the corrected series of one reservoir. *)
Variables Table Merged Frame : Type.

(** Lines 26-31, 33-38 and 40-43: reading and preparing the table of one
    reservoir for Landsat-8, Sentinel-2 and Sentinel-1. *)
Variables read_l8 read_s2 read_sar : string -> Outcome Table.

(** Lines 46-51 after the list was found non-empty. *)
Variable merge_optical : list Table -> Outcome Table.

(** Lines 52-103 once the Sentinel-1 table is at hand. *)
Variable merge_and_filter1 : Table -> Table -> Outcome Merged.

(** Lines 107-173: the corrections that use the nominal area. *)
Variable filter2_and_3 : string -> Q -> Merged -> Outcome Frame.

(** Line 177 after the list was found non-empty. *)
Variable concat_frames : list Frame -> Frame.

(** Lines 24-173: one pass of the loop over [res_list]. *)
Definition one_reservoir (satellites : list string) (res_nomArea : list Q)
  (curr_dam_index : nat) (res_name : string) : Outcome Frame :=
  l8 <~ (if py_in "l8" satellites
         then t <~ read_l8 res_name ;; Returns [t] else Returns []) ;;
  s2 <~ (if py_in "s2" satellites
         then t <~ read_s2 res_name ;; Returns [t] else Returns []) ;;
  s1 <~ (if py_in "s1" satellites
         then t <~ read_sar res_name ;; Returns (Some t) else Returns None) ;;
  let optical_to_concat := (l8 ++ s2)%list in
  pdf1 <~ pd_concat merge_optical optical_to_concat ;;
  match s1 with
  | None => Raises (UnboundLocalError "res_wa_timeseries_s1")
  | Some res_wa_timeseries_s1 =>
      merged <~ merge_and_filter1 pdf1 res_wa_timeseries_s1 ;;
      match nth_error res_nomArea curr_dam_index with
      | None => Raises (Builtin IndexError)
      | Some res_nom_SA => filter2_and_3 res_name res_nom_SA merged
      end
  end.

(** Lines 23-175: the loop, from position [curr_dam_index] on, appending
    to [data]. *)
Fixpoint reservoirs_loop (satellites : list string) (res_nomArea : list Q)
  (curr_dam_index : nat) (res_list : list string) (data : list Frame)
  : Outcome (list Frame) :=
  match res_list with
  | [] => Returns data
  | res_name :: rest =>
      final_sa <~ one_reservoir satellites res_nomArea curr_dam_index res_name ;;
      reservoirs_loop satellites res_nomArea (S curr_dam_index) rest
        (data ++ [final_sa])%list
  end.

(** Lines 21-177. *)
Definition process (res_list : list string) (res_nomArea : list Q)
  (satellites : list string) : Result (Outcome Frame) :=
  Ok (data <~ reservoirs_loop satellites res_nomArea 0 res_list [] ;;
      pd_concat (fun d => Returns (concat_frames d)) data).

(** A call of [filtering]: the assertions, then the rest. *)
Definition filtering_call (res_list : list string) (res_nomArea : list Q)
  (satellites : list string) : Outcome Frame :=
  match filtering (process res_list res_nomArea) satellites with
  | Ok o => o
  | Raise e => Raises (Builtin e)
  end.

End Run.

(** A call on stand-in tables: every file can be read, a table is its
    number of source tables and a series the number of its parts. *)
Definition toy_call : list string -> list Q -> list string -> Outcome nat :=
  filtering_call (fun _ => Returns 1%nat) (fun _ => Returns 1%nat)
    (fun _ => Returns 1%nat) (fun l => Returns (List.length l))
    (fun a b => Returns (a + b)%nat) (fun _ _ m => Returns m)
    (fun d => List.length d).

(** Line 78: the key of the monthly groups, the year and the month
    written in decimal one after the other. *)
Definition str (n : N) : string :=
  DecimalString.NilEmpty.string_of_uint (N.to_uint n).

Definition YearMonth (year month : N) : string :=
  (str year ++ str month)%string.

Open Scope Z_scope.

(** [diff()] of a column of dates, counted in days, after the entry
    [prev]. *)
Fixpoint diff_days (prev : Z) (dates : list Z) : list Z :=
  match dates with
  | [] => []
  | d :: rest => (d - prev) :: diff_days d rest
  end.

(** Line 172: the days since the row before, zero on the first row;
    a date is its day number. *)
Definition days_passed (dates : list Z) : list Z :=
  match dates with
  | [] => []
  | d :: rest => 0 :: diff_days d rest
  end.

Definition sum (l : list Z) : Z := fold_right Z.add 0 l.

End FilteringRun.

Unset Implicit Arguments.

(** * Properties of the surface-area filter *)

Section FilteringFacts.

Import SarathFiltering.
Open Scope string_scope.

Lemma py_in_In (s : string) (l : list string) : py_in s l = true <-> In s l.
Proof.
  unfold py_in. rewrite existsb_exists. split.
  - intros [x [Hin Heq]]. apply String.eqb_eq in Heq. now subst.
  - intros Hin. exists s. split; [assumption | apply String.eqb_refl].
Qed.

Lemma py_in_not_In (s : string) (l : list string) : py_in s l = false <-> ~ In s l.
Proof.
  rewrite <- py_in_In. destruct (py_in s l); split; intros H; try discriminate;
    try reflexivity; try (intros H'; discriminate). now elim H.
Qed.

(** C10: [filtering] raises [AssertionError] ahead of everything else when
    the satellites name no SAR source ('s1' or 'sar') or no optical source
    ('l8', 'l9' or 's2'), and goes on to the processing when they name both. *)
Theorem filtering_satellite_checks (Out : Type)
  (process : list string -> Result Out) (satellites : list string) :
  (~ In "s1" satellites /\ ~ In "sar" satellites ->
   filtering process satellites = Raise (AssertionError "SAR data is required"))
  /\ (~ In "l8" satellites /\ ~ In "l9" satellites /\ ~ In "s2" satellites ->
      exists msg, filtering process satellites = Raise (AssertionError msg))
  /\ ((In "s1" satellites \/ In "sar" satellites) ->
      (In "l8" satellites \/ In "l9" satellites \/ In "s2" satellites) ->
      filtering process satellites = process satellites).
Proof.
  unfold filtering, assert_. repeat split.
  - intros [H1 H2]. apply py_in_not_In in H1, H2. now rewrite H1, H2.
  - intros (H1 & H2 & H3). apply py_in_not_In in H1, H2, H3.
    rewrite H1, H2, H3. cbn.
    destruct (py_in "s1" satellites || py_in "sar" satellites); cbn; eauto.
  - intros Hsar Hopt.
    assert (Es : py_in "s1" satellites || py_in "sar" satellites = true).
    { apply orb_true_iff. rewrite !py_in_In. exact Hsar. }
    assert (Eo : py_in "l8" satellites || py_in "l9" satellites
                 || py_in "s2" satellites = true).
    { rewrite !orb_true_iff, !py_in_In. tauto. }
    now rewrite Es, Eo.
Qed.

Lemma filtering_satellite_checks_witness :
  filtering (fun _ => Ok 0%nat) ["l8"; "s2"]
    = Raise (AssertionError "SAR data is required")
  /\ (exists msg, filtering (fun _ => Ok 0%nat) ["sar"] = Raise (AssertionError msg))
  /\ filtering (fun _ => Ok 0%nat) ["l8"; "l9"; "s2"; "s1"] = Ok 0%nat.
Proof.
  split; [| split].
  - apply (proj1 (filtering_satellite_checks nat (fun _ => Ok 0%nat) ["l8"; "s2"])).
    split; intros H; cbn in H; intuition discriminate.
  - apply (proj1 (proj2 (filtering_satellite_checks nat (fun _ => Ok 0%nat) ["sar"]))).
    repeat split; intros H; cbn in H; intuition discriminate.
  - apply (proj2 (proj2 (filtering_satellite_checks nat (fun _ => Ok 0%nat)
                           ["l8"; "l9"; "s2"; "s1"]))).
    + left. cbn. tauto.
    + left. cbn. tauto.
Defined.

Open Scope Q_scope.

(** [np.abs(dev / dev)] is one for every non-zero deviation, whatever its
    sign. *)
Lemma dev_sign_one (dev : Q) : ~ dev == 0 -> dev_sign dev == 1.
Proof.
  intros Hnz. unfold dev_sign.
  assert (E : dev / dev == 1) by (field; exact Hnz).
  rewrite E. reflexivity.
Qed.

(** The replacement the code computes always adds the threshold. *)
Lemma mod_val_adds_threshold (res_nom_SA filt_2_thresh : Q) (r : Row) :
  ~ deviations r == 0 ->
  mod_val res_nom_SA filt_2_thresh r
  == WA_Optical r + res_nom_SA * filt_2_thresh / 100 - deviations r.
Proof.
  intros Hnz. unfold mod_val. rewrite (dev_sign_one _ Hnz). field.
Qed.

(** For a positive deviation the code and the signed correction agree. *)
Lemma mod_val_signed_positive (res_nom_SA filt_2_thresh : Q) (r : Row) :
  0 < deviations r ->
  mod_val res_nom_SA filt_2_thresh r == mod_val_signed res_nom_SA filt_2_thresh r.
Proof.
  intros Hpos.
  assert (Hnz : ~ deviations r == 0).
  { intros E. rewrite E in Hpos. now apply Qlt_irrefl in Hpos. }
  rewrite (mod_val_adds_threshold _ _ _ Hnz). unfold mod_val_signed, sign, Qlt_bool.
  assert (E1 : Qle_bool 0 (deviations r) = true).
  { apply Qle_bool_iff. now apply Qlt_le_weak. }
  assert (E2 : Qle_bool (deviations r) 0 = false).
  { destruct (Qle_bool (deviations r) 0) eqn:E; [| reflexivity].
    apply Qle_bool_iff in E. exfalso. eapply Qlt_irrefl.
    eapply Qlt_le_trans; eassumption. }
  rewrite E1, E2. cbn. field.
Qed.

(** C8: on the row with optical area 80 and SAR area 100, nominal area 100
    and a threshold of 5 percent, the deviation -20 is outside the band
    [-5, 5]; the code replaces the optical value by 105, where the
    correction signed with the deviation gives 95. *)
Theorem filter2_negative_deviation :
  let r := with_deviations 80 100 in
  outliers 100 5 r = true
  /\ deviations r == -20
  /\ map WA_Optical (filter2 100 5 [r]) = [mod_val 100 5 r]
  /\ mod_val 100 5 r == 105
  /\ mod_val_signed 100 5 r == 95
  /\ ~ mod_val 100 5 r == mod_val_signed 100 5 r.
Proof.
  cbv zeta. repeat split; try reflexivity.
  intros H. vm_compute in H. discriminate.
Qed.

End FilteringFacts.

(** * Properties of the network builder *)

Section Positions.

Import GenerateNetwork.
Open Scope Z_scope.

Lemma norm_index_Some (n i k : Z) :
  norm_index n i = Some k -> - n <= i < n /\ 0 <= k < n.
Proof.
  unfold norm_index.
  destruct ((0 <=? i) && (i <? n)) eqn:E1.
  - apply andb_true_iff in E1 as [H1 H2]. intros [= <-]. lia.
  - destruct ((- n <=? i) && (i <? 0)) eqn:E2; [| discriminate].
    apply andb_true_iff in E2 as [H1 H2]. intros [= <-]. lia.
Qed.

Lemma norm_index_inside (n i : Z) : 0 <= i < n -> norm_index n i = Some i.
Proof.
  intros H. unfold norm_index.
  replace ((0 <=? i) && (i <? n)) with true; [reflexivity |].
  symmetry. apply andb_true_iff. lia.
Qed.

Lemma norm_index_outside (n i : Z) : n <= i \/ i < - n -> norm_index n i = None.
Proof.
  intros H. unfold norm_index.
  destruct ((0 <=? i) && (i <? n)) eqn:E1.
  - apply andb_true_iff in E1. lia.
  - destruct ((- n <=? i) && (i <? 0)) eqn:E2; [| reflexivity].
    apply andb_true_iff in E2. lia.
Qed.

(** A successful positional lookup pins the raw position to the box of
    the valid positions, negative ones included. *)
Lemma isel_Ok_box (A : Type) (d : DataArray A) (x y : Z) (v : option A) :
  isel d x y = Ok v ->
  - size_x d <= x < size_x d /\ - size_y d <= y < size_y d.
Proof.
  unfold isel.
  destruct (norm_index (size_y d) y) eqn:Ey; [| discriminate].
  destruct (norm_index (size_x d) x) eqn:Ex; [| discriminate].
  apply norm_index_Some in Ey, Ex. lia.
Qed.

Lemma isel_raises_IndexError (A : Type) (d : DataArray A) (x y : Z) (ex : Exception) :
  isel d x y = Raise ex -> ex = IndexError.
Proof.
  unfold isel.
  destruct (norm_index (size_y d) y); [destruct (norm_index (size_x d) x) |];
    intros [= <-]; reflexivity.
Qed.

Lemma isel_full_like_nan (A B : Type) (d : DataArray A) (x y : Z) (v : option A) :
  isel d x y = Ok v -> isel (full_like_nan (B := B) d) x y = Ok None.
Proof.
  unfold isel, size_y, size_x. cbn.
  destruct (norm_index (len (ys d)) y); [| discriminate].
  destruct (norm_index (len (xs d)) x); [| discriminate]. reflexivity.
Qed.

Lemma in_span (n i : Z) : - n <= i < n -> In i (span n).
Proof.
  intros H. unfold span. apply in_map_iff.
  exists (Z.to_nat (i + n)). split; [lia |]. apply in_seq. lia.
Qed.

Lemma length_span (n : Z) : List.length (span n) = Z.to_nat (2 * n).
Proof. unfold span. now rewrite length_map, length_seq. Qed.

(** A list of distinct raw positions of a [ny] by [nx] raster has at most
    [4 * ny * nx] entries. *)
Lemma box_bound (ny nx : Z) (l : list (Z * Z)) :
  0 <= ny -> 0 <= nx -> NoDup l -> (forall c, In c l -> in_box ny nx c) ->
  Z.of_nat (List.length l) <= 4 * ny * nx.
Proof.
  intros Hy Hx Hnd Hin.
  assert (Hincl : incl l (list_prod (span nx) (span ny))).
  { intros [x y] Hc. apply in_prod; apply in_span; apply (Hin _ Hc). }
  apply (NoDup_incl_length Hnd) in Hincl.
  rewrite length_prod, !length_span in Hincl. nia.
Qed.

Lemma in_visited_In (c : Z * Z) (l : list (Z * Z)) :
  in_visited c l = true <-> In c l.
Proof.
  unfold in_visited. rewrite existsb_exists. split.
  - intros [[a b] [Hin Heq]]. destruct c as [x y]. cbn in Heq.
    apply andb_true_iff in Heq as [H1 H2].
    apply Z.eqb_eq in H1, H2. now subst.
  - intros Hin. exists c. split; [assumption |].
    now rewrite !Z.eqb_refl.
Qed.

Lemma in_visited_not_In (c : Z * Z) (l : list (Z * Z)) :
  in_visited c l = false <-> ~ In c l.
Proof.
  rewrite <- in_visited_In. destruct (in_visited c l); split; intros H;
    try discriminate; try reflexivity. now elim H.
Qed.

End Positions.

Section TraceFacts.

Import GenerateNetwork.
Open Scope Z_scope.

Variables band raster : DataArray Z.

(** What a pass that does not end the loop has done. *)
Lemma step_Continue_inv (s s' : TraceState) :
  step band raster s = Continue s' ->
  exists dy dx pix,
    operations (current_pix s) = Some (dy, dx)
    /\ ~ In (idxx s + dx, idxy s + dy) (visited s)
    /\ isel band (idxx s + dx) (idxy s + dy) = Ok (Some pix)
    /\ isel raster (idxx s + dx) (idxy s + dy) = Ok None
    /\ s' = mkState (idxx s + dx) (idxy s + dy)
              (visited s ++ [(idxx s + dx, idxy s + dy)]) pix.
Proof.
  unfold step. destruct (operations (current_pix s)) as [[dy dx] |]; [| discriminate].
  destruct (in_visited _ _) eqn:Ev; [discriminate |].
  apply in_visited_not_In in Ev.
  destruct (isel band _ _) as [[pix |] | ex] eqn:Eb; try discriminate.
  destruct (isel raster _ _) as [[r |] | ex] eqn:Er; try discriminate.
  - intros [= <-]. exists dy, dx, pix. repeat split; assumption.
  - destruct ex; discriminate.
Qed.

Lemma step_Continue_visited_ok (s s' : TraceState) :
  step band raster s = Continue s' -> visited_ok band s ->
  visited_ok band s'
  /\ List.length (visited s') = S (List.length (visited s)).
Proof.
  intros Hstep [Hnd Hbox].
  destruct (step_Continue_inv _ _ Hstep) as (dy & dx & pix & _ & Hnew & Hb & _ & ->).
  cbn. split; [split |].
  - apply NoDup_app; [assumption | repeat constructor; intros [] | ].
    intros c Hc [<- | []]. contradiction.
  - intros c Hc. apply in_app_iff in Hc as [Hc | [<- | []]]; [now apply Hbox |].
    apply isel_Ok_box in Hb. exact Hb.
  - rewrite length_app. cbn. lia.
Qed.

Lemma visited_ok_bound (s : TraceState) :
  visited_ok band s -> (List.length (visited s) <= trace_fuel band)%nat.
Proof.
  intros [Hnd Hbox]. unfold trace_fuel.
  assert (Z.of_nat (List.length (visited s)) <= 4 * size_y band * size_x band);
    [| lia].
  apply box_bound; try assumption; unfold size_y, size_x, len; lia.
Qed.

(** The loop ends: once the fuel covers the raw positions not yet
    visited, a trace comes out. *)
Lemma while_not_END_terminates (fuel : nat) :
  forall s : TraceState,
    visited_ok band s ->
    (trace_fuel band < List.length (visited s) + fuel)%nat ->
    exists t, while_not_END band raster fuel s = Some t.
Proof.
  induction fuel as [| fuel IH]; intros s Hok Hfuel.
  - apply visited_ok_bound in Hok. lia.
  - cbn. destruct (step band raster s) as [s' | v e | v ex] eqn:Hstep; eauto.
    destruct (step_Continue_visited_ok _ _ Hstep Hok) as [Hok' Hlen].
    destruct (IH s' Hok') as [t Ht]; [lia |]. rewrite Ht. eauto.
Qed.

(** More fuel does not change a finished trace. *)
Lemma while_not_END_more_fuel (fuel : nat) :
  forall (s : TraceState) (t : Trace) (extra : nat),
    while_not_END band raster fuel s = Some t ->
    while_not_END band raster (fuel + extra) s = Some t.
Proof.
  induction fuel as [| fuel IH]; intros s t extra H; [discriminate |].
  cbn in *. destruct (step band raster s) as [s' | v e | v ex]; try assumption.
  destruct (while_not_END band raster fuel s') as [t' |] eqn:E; [| discriminate].
  now rewrite (IH _ _ extra E).
Qed.

Lemma while_not_END_fuel_irrelevant (f1 f2 : nat) (s : TraceState) (t1 t2 : Trace) :
  while_not_END band raster f1 s = Some t1 ->
  while_not_END band raster f2 s = Some t2 -> t1 = t2.
Proof.
  intros H1 H2.
  apply (while_not_END_more_fuel _ _ _ f2) in H1.
  apply (while_not_END_more_fuel _ _ _ f1) in H2.
  rewrite Nat.add_comm in H2. congruence.
Qed.

(** The passes of a trace are bounded by the raw positions left. *)
Lemma while_not_END_iterations (fuel : nat) :
  forall (s : TraceState) (t : Trace),
    visited_ok band s ->
    while_not_END band raster fuel s = Some t ->
    (iterations t + List.length (visited s) <= trace_fuel band + 1)%nat.
Proof.
  induction fuel as [| fuel IH]; intros s t Hok H; [discriminate |].
  pose proof (visited_ok_bound _ Hok) as Hb.
  cbn in H. destruct (step band raster s) as [s' | v e | v ex] eqn:Hstep.
  - destruct (while_not_END band raster fuel s') as [t' |] eqn:E; [| discriminate].
    injection H as <-. simpl iterations.
    destruct (step_Continue_visited_ok _ _ Hstep Hok) as [Hok' Hlen].
    specialize (IH _ _ Hok' E). lia.
  - injection H as <-. simpl iterations. lia.
  - injection H as <-. simpl iterations. lia.
Qed.

(** A trace started in [s] that passes through [s'] ends as the trace
    started in [s'] does. *)
Lemma reaches_same_end (s s' : TraceState) :
  reaches band raster s s' ->
  forall (f f' : nat) (t t' : Trace),
    while_not_END band raster f s = Some t ->
    while_not_END band raster f' s' = Some t' ->
    outcome t = outcome t' /\ cells t = cells t'
    /\ (iterations t' <= iterations t)%nat.
Proof.
  induction 1 as [s | s s1 s2 Hstep Hreach IH]; intros f f' t t' Ht Ht'.
  - rewrite (while_not_END_fuel_irrelevant _ _ _ _ _ Ht Ht'). auto.
  - destruct f as [| f]; [discriminate |]. cbn in Ht. rewrite Hstep in Ht.
    destruct (while_not_END band raster f s1) as [t1 |] eqn:E; [| discriminate].
    injection Ht as <-. cbn.
    destruct (IH _ _ _ _ E Ht') as (H1 & H2 & H3). repeat split; auto.
Qed.

Lemma reaches_visited_ok (s s' : TraceState) :
  reaches band raster s s' -> visited_ok band s -> visited_ok band s'.
Proof.
  induction 1 as [| s s1 s2 Hstep _ IH]; intros Hok; [assumption |].
  apply IH. now apply (step_Continue_visited_ok _ _ Hstep).
Qed.

End TraceFacts.

Section IndexerFacts.

Import GenerateNetwork.
Open Scope Z_scope.

Lemma nearest_from_range (index : list Q) (target : Q) :
  forall (pos best : Z) (bestv : Q),
    0 <= best < pos ->
    0 <= nearest_from index target pos best bestv < pos + len index.
Proof.
  unfold len. induction index as [| a rest IH]; intros pos best bestv H.
  - cbn. lia.
  - cbn [nearest_from List.length]. destruct (closer target a bestv).
    + specialize (IH (pos + 1) pos a). lia.
    + specialize (IH (pos + 1) best bestv). lia.
Qed.

(** On an axis with at least one label the nearest indexer answers with
    a position of the axis, wherever the target lies. *)
Lemma get_indexer_range (index : list Q) (target : Q) :
  index <> [] -> 0 <= get_indexer index target < len index.
Proof.
  destruct index as [| a rest]; [congruence | intros _].
  unfold get_indexer.
  pose proof (nearest_from_range rest target 1 0 a). unfold len in *.
  cbn [List.length]. lia.
Qed.

Lemma get_indexer_lower (index : list Q) (target : Q) :
  -1 <= get_indexer index target.
Proof.
  destruct index as [| a rest]; [cbn; lia |].
  assert (H : a :: rest <> []) by discriminate.
  apply (get_indexer_range _ target) in H. lia.
Qed.

End IndexerFacts.

Section GraphFacts.

Import GenerateNetwork.
Open Scope Z_scope.

Lemma edges_add_node (G : GeoDiGraph) (n : Z) : edges (add_node G n) = edges G.
Proof. unfold add_node. now destruct (has_node G n). Qed.

Lemma edges_add_nodes_from (ids : list Z) :
  forall G : GeoDiGraph, edges (add_nodes_from G ids) = edges G.
Proof.
  unfold add_nodes_from. induction ids as [| n ids IH]; intros G; [reflexivity |].
  cbn. now rewrite IH, edges_add_node.
Qed.

Lemma edges_set_node_attributes (G : GeoDiGraph) (n : Z) (a : NodeAttrs) :
  edges (set_node_attributes G n a) = edges G.
Proof. reflexivity. Qed.

Lemma has_edge_In (G : GeoDiGraph) (u v : Z) :
  has_edge G u v = true <-> In (u, v) (edges G).
Proof.
  unfold has_edge. rewrite existsb_exists. split.
  - intros [[a b] [Hin Heq]]. cbn in Heq. apply andb_true_iff in Heq as [H1 H2].
    apply Z.eqb_eq in H1, H2. now subst.
  - intros Hin. exists (u, v). cbn. now rewrite !Z.eqb_refl.
Qed.

Lemma out_edges_In (G : GeoDiGraph) (u : Z) (e : Z * Z) :
  In e (out_edges G u) <-> In e (edges G) /\ fst e = u.
Proof. unfold out_edges. now rewrite filter_In, Z.eqb_eq. Qed.

(** What [add_edge] does to the edge list. *)
Lemma edges_add_edge (G : GeoDiGraph) (u v : Z) :
  edges (add_edge G u v)
  = if has_edge G u v then edges G else edges G ++ [(u, v)].
Proof.
  unfold add_edge, has_edge. rewrite !edges_add_node.
  destruct (existsb _ (edges G)); cbn; now rewrite ?edges_add_node.
Qed.

Lemma out_edges_add_edge_other (G : GeoDiGraph) (u v w : Z) :
  w <> u -> out_edges (add_edge G u v) w = out_edges G w.
Proof.
  intros Hw. unfold out_edges. rewrite edges_add_edge.
  destruct (has_edge G u v); [reflexivity |].
  rewrite filter_app. cbn. apply Z.eqb_neq in Hw. rewrite Z.eqb_sym in Hw.
  rewrite Hw. apply app_nil_r.
Qed.

Lemma out_edges_add_edge_first (G : GeoDiGraph) (u v : Z) :
  out_edges G u = [] -> out_edges (add_edge G u v) u = [(u, v)].
Proof.
  intros Hnone. unfold out_edges in *. rewrite edges_add_edge.
  destruct (has_edge G u v) eqn:E.
  - apply has_edge_In in E.
    assert (Hin : In (u, v) (filter (fun e => fst e =? u) (edges G))).
    { apply filter_In. split; [assumption | apply Z.eqb_refl]. }
    rewrite Hnone in Hin. destruct Hin.
  - rewrite filter_app, Hnone. cbn. now rewrite Z.eqb_refl.
Qed.

End GraphFacts.

Section NodesFacts.

Import GenerateNetwork.
Open Scope Z_scope.

Variables band raster : DataArray Z.

Lemma trace_node_unfold (fuel : nat) (row : Station) :
  trace_node band raster fuel row
  = match isel band (fst (snap band row)) (snd (snap band row)) with
    | Raise ex => Some (mkTrace 0 [snap band row] (Raise ex))
    | Ok None => Some (mkTrace 0 [snap band row] (Ok no_edge))
    | Ok (Some pix) => while_not_END band raster fuel (start_state band row pix)
    end.
Proof. reflexivity. Qed.

Lemma start_state_ok (row : Station) (pix : Z) (v : option Z) :
  isel band (fst (snap band row)) (snd (snap band row)) = Ok v ->
  visited_ok band (start_state band row pix).
Proof.
  intros H. apply isel_Ok_box in H. split; cbn.
  - repeat constructor. intros [].
  - intros c [<- | []]. exact H.
Qed.

(** Every trace ends within the fuel [generate_network] gives it. *)
Lemma trace_node_terminates (row : Station) :
  exists t, trace_node band raster (trace_fuel band) row = Some t.
Proof.
  rewrite trace_node_unfold.
  destruct (isel band _ _) as [[pix |] | ex] eqn:E; eauto.
  apply while_not_END_terminates.
  - exact (start_state_ok row pix _ E).
  - cbn. lia.
Qed.

Lemma trace_nodes_terminates (rows : list Station) :
  forall (G : GeoDiGraph) (node : Z),
    exists r, trace_nodes band raster (trace_fuel band) G node rows = Some r.
Proof.
  induction rows as [| row rest IH]; intros G node; cbn; eauto.
  destruct (trace_node_terminates row) as [t ->].
  destruct (outcome t); eauto.
Qed.

Lemma out_edges_after_station_other (G : GeoDiGraph) (node : Z) (row : Station)
  (e : Exit) (u : Z) :
  u <> node -> out_edges (after_station G node row e) u = out_edges G u.
Proof.
  intros Hu. unfold after_station. destruct e; [reflexivity |].
  now rewrite out_edges_add_edge_other.
Qed.

Lemma out_edges_after_station_same (G : GeoDiGraph) (node : Z) (row : Station)
  (e : Exit) :
  out_edges G node = [] ->
  out_edges (after_station G node row e) node
  = match e with
    | edge_to any_reservoir => [(node, any_reservoir)]
    | no_edge => []
    end.
Proof.
  intros H. unfold after_station. destruct e; [exact H |].
  now apply out_edges_add_edge_first.
Qed.

(** The stations from [node] on leave the edges of earlier nodes alone. *)
Lemma trace_nodes_out_edges_before (fuel : nat) (rows : list Station) :
  forall (G G' : GeoDiGraph) (node u : Z),
    trace_nodes band raster fuel G node rows = Some (Ok G') ->
    u < node -> out_edges G' u = out_edges G u.
Proof.
  induction rows as [| row rest IH]; intros G G' node u H Hu; cbn in H.
  - now injection H as <-.
  - destruct (trace_node band raster fuel row) as [t |]; [| discriminate].
    destruct (outcome t) as [e | ex]; [| discriminate].
    rewrite (IH _ _ _ u H) by lia.
    apply (out_edges_after_station_other G node row e). lia.
Qed.

(** The outgoing edges of a station in the finished graph are what its
    own trace produced. *)
Lemma trace_nodes_out_edges_at (fuel : nat) (rows : list Station) :
  forall (G G' : GeoDiGraph) (node : Z) (k : nat) (row : Station),
    trace_nodes band raster fuel G node rows = Some (Ok G') ->
    (forall u, node <= u -> out_edges G u = []) ->
    nth_error rows k = Some row ->
    exists t e,
      trace_node band raster fuel row = Some t
      /\ outcome t = Ok e
      /\ out_edges G' (node + Z.of_nat k)
         = match e with
           | edge_to any_reservoir => [(node + Z.of_nat k, any_reservoir)]
           | no_edge => []
           end.
Proof.
  induction rows as [| row0 rest IH]; intros G G' node k row H Hnone Hk.
  - destruct k; discriminate.
  - cbn in H.
    destruct (trace_node band raster fuel row0) as [t |] eqn:Et; [| discriminate].
    destruct (outcome t) as [e | ex] eqn:Eo; [| discriminate].
    destruct k as [| k].
    + injection Hk as <-. exists t, e. repeat split; try assumption.
      rewrite Z.add_0_r.
      rewrite (trace_nodes_out_edges_before _ _ _ _ _ node H) by lia.
      apply out_edges_after_station_same, Hnone. lia.
    + cbn in Hk.
      destruct (IH _ _ _ k row H) with (2 := Hk) as (t' & e' & H1 & H2 & H3).
      { intros u Hu. rewrite out_edges_after_station_other by lia.
        apply Hnone. lia. }
      exists t', e'. repeat split; try assumption.
      replace (node + Z.of_nat (S k)) with (node + 1 + Z.of_nat k) by lia.
      exact H3.
Qed.

(** Nodes past the table get no outgoing edge. *)
Lemma trace_nodes_out_edges_after (fuel : nat) (rows : list Station) :
  forall (G G' : GeoDiGraph) (node u : Z),
    trace_nodes band raster fuel G node rows = Some (Ok G') ->
    node + len rows <= u -> out_edges G' u = out_edges G u.
Proof.
  unfold len.
  induction rows as [| row rest IH]; intros G G' node u H Hu; cbn in H.
  - now injection H as <-.
  - destruct (trace_node band raster fuel row) as [t |]; [| discriminate].
    destruct (outcome t) as [e | ex]; [| discriminate].
    cbn [List.length] in Hu.
    rewrite (IH _ _ _ u H) by lia.
    apply (out_edges_after_station_other G node row e). lia.
Qed.

End NodesFacts.

Section NetworkFacts.

Import GenerateNetwork.
Open Scope Z_scope.

Variable band : DataArray Z.
Variable reservoirs : list Station.
Variable elevation_raster : option (DataArray Q).

(** [generate_network] always comes back, with a network or an exception. *)
Lemma generate_network_terminates :
  exists r, generate_network band reservoirs elevation_raster = Some r.
Proof.
  unfold generate_network.
  destruct (reservoir_location_raster band reservoirs) as [raster | ex]; eauto.
  destruct (trace_nodes_terminates band raster reservoirs
              (add_nodes_from (mkGraph [] []) (index_of reservoirs)) 0)
    as [[G | ex] ->]; eauto.
  destruct elevation_raster; eauto.
Qed.

Lemma generate_network_Ok_inv (net : Network) :
  generate_network band reservoirs elevation_raster = Some (Ok net) ->
  exists raster,
    reservoir_location_raster band reservoirs = Ok raster
    /\ trace_nodes band raster (trace_fuel band)
         (add_nodes_from (mkGraph [] []) (index_of reservoirs)) 0 reservoirs
       = Some (Ok (graph net)).
Proof.
  unfold generate_network.
  destruct (reservoir_location_raster band reservoirs) as [raster | ex];
    [| discriminate].
  cbv zeta.
  destruct (trace_nodes band raster (trace_fuel band)
              (add_nodes_from (mkGraph [] []) (index_of reservoirs)) 0 reservoirs)
    as [[G | ex] |] eqn:Etr; try discriminate.
  destruct elevation_raster as [elev |].
  - destruct (sample_elevation elev _); cbn; intros H; [| discriminate].
    injection H as <-. exists raster. split; [reflexivity | exact Etr].
  - intros [= <-]. exists raster. split; [reflexivity | exact Etr].
Qed.

(** In the returned graph a station's outgoing edges are the edge its
    trace found, or none. *)
Lemma generate_network_out_edges (net : Network) (raster : DataArray Z)
  (k : nat) (row : Station) :
  generate_network band reservoirs elevation_raster = Some (Ok net) ->
  reservoir_location_raster band reservoirs = Ok raster ->
  nth_error reservoirs k = Some row ->
  exists t e,
    trace_node band raster (trace_fuel band) row = Some t
    /\ outcome t = Ok e
    /\ out_edges (graph net) (Z.of_nat k)
       = match e with
         | edge_to any_reservoir => [(Z.of_nat k, any_reservoir)]
         | no_edge => []
         end.
Proof.
  intros Hnet Hraster Hk.
  destruct (generate_network_Ok_inv _ Hnet) as (raster' & Hr & Htr).
  assert (raster' = raster) by congruence. subst raster'.
  apply (trace_nodes_out_edges_at band raster _ _ _ _ 0 k row Htr); [| assumption].
  intros u _. unfold out_edges. now rewrite edges_add_nodes_from.
Qed.

(** Ids outside the station table have no outgoing edge. *)
Lemma generate_network_out_edges_outside (net : Network) (u : Z) :
  generate_network band reservoirs elevation_raster = Some (Ok net) ->
  u < 0 \/ len reservoirs <= u -> out_edges (graph net) u = [].
Proof.
  intros Hnet Hu.
  destruct (generate_network_Ok_inv _ Hnet) as (raster & Hr & Htr).
  assert (E : out_edges (add_nodes_from (mkGraph [] []) (index_of reservoirs)) u = []).
  { unfold out_edges. now rewrite edges_add_nodes_from. }
  rewrite <- E. destruct Hu as [Hu | Hu].
  - apply (trace_nodes_out_edges_before band raster _ _ _ _ 0 u Htr). lia.
  - apply (trace_nodes_out_edges_after band raster _ _ _ _ 0 u Htr). lia.
Qed.

End NetworkFacts.

Section Defects.

Import GenerateNetwork Inputs.
Open Scope Z_scope.

(** A pass whose next position is new and outside the box of valid raw
    positions raises [IndexError]: the lookup of line 139 is not guarded. *)
Lemma step_off_grid_raises (band raster : DataArray Z) (s : TraceState) (dy dx : Z) :
  operations (current_pix s) = Some (dy, dx) ->
  ~ In (idxx s + dx, idxy s + dy) (visited s) ->
  ~ in_box (size_y band) (size_x band) (idxx s + dx, idxy s + dy) ->
  step band raster s
  = Throw (visited s ++ [(idxx s + dx, idxy s + dy)]) IndexError.
Proof.
  intros Hop Hnew Hout. unfold step. rewrite Hop.
  apply in_visited_not_In in Hnew. rewrite Hnew.
  destruct (isel band (idxx s + dx) (idxy s + dy)) as [v | ex] eqn:E.
  - apply isel_Ok_box in E. elim Hout. exact E.
  - now rewrite (isel_raises_IndexError _ _ _ _ _ E).
Qed.

(** The handler of line 159 never runs when the location raster has the
    shape of the flow-direction raster: its lookup succeeds wherever the
    lookup of line 139 did. *)
Lemma location_lookup_never_raises (band : DataArray Z) (reservoirs : list Station)
  (raster : DataArray Z) (x y : Z) (v : option Z) :
  ys raster = ys band -> xs raster = xs band ->
  isel band x y = Ok v -> exists r, isel raster x y = Ok r.
Proof.
  unfold isel, size_y, size_x. intros -> ->.
  destruct (norm_index (len (ys band)) y); [| discriminate].
  destruct (norm_index (len (xs band)) x); [| discriminate]. eauto.
Qed.

(** C1: on a single row whose two cells flow east, the trace from the
    station in the first cell steps off the grid, and the [IndexError] of
    the lookup leaves [generate_network]. *)
Theorem off_grid_raises_IndexError :
  generate_network east_row [station "A" 0 0] None = Some (Raise IndexError)
  /\ trace_node east_row (raster_of east_row [station "A" 0 0])
       (trace_fuel east_row) (station "A" 0 0)
     = Some (mkTrace 2 [(0, 0); (1, 0); (2, 0)] (Raise IndexError)).
Proof. split; vm_compute; reflexivity. Qed.

(** C3: the two-by-two raster [winding] holds only valid codes and no
    path inside its bounds cycles (from every cell the flow leaves the
    grid within four moves), yet the trace from the station in the upper
    right cell makes six passes, more than the four cells, and ends by
    raising [IndexError]. *)
Theorem winding_trace_exceeds_cells :
  all_codes_valid winding = true
  /\ forallb (leaves_grid winding 4) (all_cells winding) = true
  /\ size_y winding * size_x winding = 4
  /\ trace_node winding (raster_of winding [station "A" 1 0])
       (trace_fuel winding) (station "A" 1 0)
     = Some (mkTrace 6
               [(1, 0); (0, -1); (0, -2); (1, -1); (0, 0); (1, 1); (0, 2)]
               (Raise IndexError))
  /\ generate_network winding [station "A" 1 0] None = Some (Raise IndexError).
Proof. repeat split; vm_compute; reflexivity. Qed.

(** C9: on the two-by-two raster whose cells all flow north, the trace
    from the station in the upper left cell leaves through the top, comes
    back in through the bottom row and meets its own cell: the graph gets
    the edge from node 0 to node 0. *)
Theorem north_block_self_loop :
  exists net,
    generate_network north_block [station "A" 0 0] None = Some (Ok net)
    /\ edges (graph net) = [(0, 0)]
    /\ trace_node north_block (raster_of north_block [station "A" 0 0])
         (trace_fuel north_block) (station "A" 0 0)
       = Some (mkTrace 2 [(0, 0); (0, -1); (0, -2)] (Ok (edge_to 0))).
Proof.
  eexists. split; [vm_compute; reflexivity |].
  split; vm_compute; reflexivity.
Qed.

End Defects.

Section TerminalConditions.

Import GenerateNetwork Inputs.
Open Scope Z_scope.

(** A trace that passes through [s'] and ends there in one pass ends the
    station's trace the same way. *)
Lemma trace_node_through (band raster : DataArray Z) (row : Station) (pix : Z)
  (s : TraceState) (v : list (Z * Z)) (e : Exit) :
  isel band (fst (snap band row)) (snd (snap band row)) = Ok (Some pix) ->
  reaches band raster (start_state band row pix) s ->
  step band raster s = Break v e ->
  exists t,
    trace_node band raster (trace_fuel band) row = Some t
    /\ outcome t = Ok e /\ cells t = v.
Proof.
  intros Hstart Hreach Hstep.
  destruct (trace_node_terminates band raster row) as [t Ht].
  exists t. split; [assumption |].
  rewrite trace_node_unfold, Hstart in Ht.
  assert (H1 : while_not_END band raster 1 s = Some (mkTrace 1 v (Ok e))).
  { cbn. now rewrite Hstep. }
  destruct (reaches_same_end band raster _ _ Hreach _ _ _ _ Ht H1) as (Ho & Hc & _).
  now rewrite Ho, Hc.
Qed.

(** A station whose trace ends without an edge has no outgoing edge in
    the returned graph. *)
Lemma no_edge_out_edges (band : DataArray Z) (reservoirs : list Station)
  (elevation_raster : option (DataArray Q)) (raster : DataArray Z)
  (k : nat) (row : Station) (t : Trace) (net : Network) :
  reservoir_location_raster band reservoirs = Ok raster ->
  nth_error reservoirs k = Some row ->
  trace_node band raster (trace_fuel band) row = Some t ->
  outcome t = Ok no_edge ->
  generate_network band reservoirs elevation_raster = Some (Ok net) ->
  out_edges (graph net) (Z.of_nat k) = [].
Proof.
  intros Hr Hk Ht Ho Hnet.
  destruct (generate_network_out_edges _ _ _ _ _ _ _ Hnet Hr Hk)
    as (t' & e & Ht' & Ho' & Hout).
  assert (t' = t) by congruence. subst t'.
  assert (e = no_edge) by congruence. now subst e.
Qed.

(** C2: when the cell the current direction code leads to is already in
    the visited list, the trace of the station ends there with no edge:
    [generate_network] comes back, and in the graph it returns the station
    has no outgoing edge. *)
Theorem cycle_check_ends_trace (band : DataArray Z) (reservoirs : list Station)
  (elevation_raster : option (DataArray Q)) (raster : DataArray Z)
  (k : nat) (row : Station) (pix : Z) (s : TraceState) (dy dx : Z) :
  reservoir_location_raster band reservoirs = Ok raster ->
  nth_error reservoirs k = Some row ->
  isel band (fst (snap band row)) (snd (snap band row)) = Ok (Some pix) ->
  reaches band raster (start_state band row pix) s ->
  operations (current_pix s) = Some (dy, dx) ->
  In (idxx s + dx, idxy s + dy) (visited s) ->
  (exists t,
      trace_node band raster (trace_fuel band) row = Some t
      /\ outcome t = Ok no_edge /\ cells t = visited s)
  /\ (exists r, generate_network band reservoirs elevation_raster = Some r)
  /\ (forall net,
         generate_network band reservoirs elevation_raster = Some (Ok net) ->
         out_edges (graph net) (Z.of_nat k) = []).
Proof.
  intros Hr Hk Hstart Hreach Hop Hin.
  assert (Hstep : step band raster s = Break (visited s) no_edge).
  { unfold step. rewrite Hop. apply in_visited_In in Hin. now rewrite Hin. }
  destruct (trace_node_through _ _ _ _ _ _ _ Hstart Hreach Hstep)
    as (t & Ht & Ho & Hc).
  split; [exists t; auto | split].
  - apply generate_network_terminates.
  - intros net Hnet. eapply no_edge_out_edges; eassumption.
Qed.

Lemma cycle_check_ends_trace_witness :
  exists t,
    trace_node back_and_forth (raster_of back_and_forth [station "A" 0 0])
      (trace_fuel back_and_forth) (station "A" 0 0) = Some t
    /\ outcome t = Ok no_edge /\ cells t = [(0, 0); (1, 0)].
Proof.
  refine (proj1 (cycle_check_ends_trace back_and_forth [station "A" 0 0] None
                  (raster_of back_and_forth [station "A" 0 0])
                  0 (station "A" 0 0) 3 (mkState 1 0 [(0, 0); (1, 0)] 7) 0 (-1)
                  eq_refl eq_refl eq_refl _ eq_refl _)).
  - eapply reaches_next; [reflexivity | apply reaches_here].
  - cbn. left. reflexivity.
Defined.

(** C5: a station whose starting cell is no-data is not traced at all,
    and a trace whose next cell is no-data ends at that cell; either way
    the trace ends with no edge and the station has no outgoing edge in
    the returned graph. *)
Theorem no_data_ends_trace (band : DataArray Z) (reservoirs : list Station)
  (elevation_raster : option (DataArray Q)) (raster : DataArray Z)
  (k : nat) (row : Station) :
  reservoir_location_raster band reservoirs = Ok raster ->
  nth_error reservoirs k = Some row ->
  (isel band (fst (snap band row)) (snd (snap band row)) = Ok None ->
   trace_node band raster (trace_fuel band) row
   = Some (mkTrace 0 [snap band row] (Ok no_edge))
   /\ forall net,
       generate_network band reservoirs elevation_raster = Some (Ok net) ->
       out_edges (graph net) (Z.of_nat k) = [])
  /\ (forall (pix : Z) (s : TraceState) (dy dx : Z),
         isel band (fst (snap band row)) (snd (snap band row)) = Ok (Some pix) ->
         reaches band raster (start_state band row pix) s ->
         operations (current_pix s) = Some (dy, dx) ->
         ~ In (idxx s + dx, idxy s + dy) (visited s) ->
         isel band (idxx s + dx) (idxy s + dy) = Ok None ->
         (exists t,
             trace_node band raster (trace_fuel band) row = Some t
             /\ outcome t = Ok no_edge
             /\ cells t = visited s ++ [(idxx s + dx, idxy s + dy)])
         /\ forall net,
             generate_network band reservoirs elevation_raster = Some (Ok net) ->
             out_edges (graph net) (Z.of_nat k) = []).
Proof.
  intros Hr Hk. split.
  - intros Hstart.
    assert (Ht : trace_node band raster (trace_fuel band) row
                 = Some (mkTrace 0 [snap band row] (Ok no_edge))).
    { now rewrite trace_node_unfold, Hstart. }
    split; [assumption |].
    intros net Hnet. eapply no_edge_out_edges; try eassumption. reflexivity.
  - intros pix s dy dx Hstart Hreach Hop Hnew Hnodata.
    assert (Hstep : step band raster s
                    = Break (visited s ++ [(idxx s + dx, idxy s + dy)]) no_edge).
    { unfold step. rewrite Hop. apply in_visited_not_In in Hnew.
      now rewrite Hnew, Hnodata. }
    destruct (trace_node_through _ _ _ _ _ _ _ Hstart Hreach Hstep)
      as (t & Ht & Ho & Hc).
    split; [exists t; auto |].
    intros net Hnet. eapply no_edge_out_edges; eassumption.
Qed.

Lemma no_data_ends_trace_witness :
  trace_node dead_end (raster_of dead_end [station "A" 0 0; station "B" 2 0])
    (trace_fuel dead_end) (station "B" 2 0)
  = Some (mkTrace 0 [(2, 0)] (Ok no_edge))
  /\ exists t,
      trace_node dead_end (raster_of dead_end [station "A" 0 0; station "B" 2 0])
        (trace_fuel dead_end) (station "A" 0 0) = Some t
      /\ outcome t = Ok no_edge
      /\ cells t = [(0, 0); (1, 0); (2, 0)].
Proof.
  split.
  - apply (proj1 (no_data_ends_trace dead_end [station "A" 0 0; station "B" 2 0]
                    None (raster_of dead_end [station "A" 0 0; station "B" 2 0])
                    1 (station "B" 2 0) eq_refl eq_refl)).
    reflexivity.
  - apply (proj2 (no_data_ends_trace dead_end [station "A" 0 0; station "B" 2 0]
                    None (raster_of dead_end [station "A" 0 0; station "B" 2 0])
                    0 (station "A" 0 0) eq_refl eq_refl)
             3 (mkState 1 0 [(0, 0); (1, 0)] 3) 0 1).
    + reflexivity.
    + eapply reaches_next; [reflexivity | apply reaches_here].
    + reflexivity.
    + cbn. intros [H | [H | []]]; discriminate.
    + reflexivity.
Defined.

End TerminalConditions.

Section LocationRaster.

Import GenerateNetwork Inputs.
Open Scope Z_scope.

Lemma cell_eq_dec (c c' : Z * Z) : {c = c'} + {c <> c'}.
Proof. decide equality; apply Z.eq_dec. Qed.

(** A write at the cell a station snaps to succeeds only on a raster with
    cells, lands on that very cell and leaves the others alone. *)
Lemma setitem_snap (raster raster' : DataArray Z) (row : Station) (resid : Z) :
  setitem raster (get_indexer (ys raster) (lat row))
          (get_indexer (xs raster) (lon row)) resid = Ok raster' ->
  ys raster' = ys raster /\ xs raster' = xs raster
  /\ forall j i,
      values raster' j i
      = if (j =? snd (snap raster row)) && (i =? fst (snap raster row))
        then Some resid else values raster j i.
Proof.
  unfold setitem, snap, size_y, size_x. cbn [fst snd].
  destruct (norm_index (len (ys raster)) _) as [j0 |] eqn:Ey; [| discriminate].
  destruct (norm_index (len (xs raster)) _) as [i0 |] eqn:Ex; [| discriminate].
  intros [= <-]. cbn. repeat split.
  assert (Hy : j0 = get_indexer (ys raster) (lat row)).
  { destruct (ys raster) as [| a l] eqn:E; [discriminate |].
    rewrite norm_index_inside in Ey; [congruence |].
    apply get_indexer_range. discriminate. }
  assert (Hx : i0 = get_indexer (xs raster) (lon row)).
  { destruct (xs raster) as [| a l] eqn:E; [discriminate |].
    rewrite norm_index_inside in Ex; [congruence |].
    apply get_indexer_range. discriminate. }
  now subst.
Qed.

Lemma snap_same_axes (A B : Type) (d : DataArray A) (d' : DataArray B)
  (row : Station) :
  ys d' = ys d -> xs d' = xs d -> snap d' row = snap d row.
Proof. unfold snap. now intros -> ->. Qed.

Lemma snap_stations_axes (rows : list Station) :
  forall (raster raster' : DataArray Z) (resid : Z),
    snap_stations raster resid rows = Ok raster' ->
    ys raster' = ys raster /\ xs raster' = xs raster.
Proof.
  induction rows as [| row rest IH]; intros raster raster' resid H; cbn in H.
  - now injection H as <-.
  - destruct (setitem raster _ _ resid) as [r1 |] eqn:E; [| discriminate].
    cbn in H. apply IH in H as [H1 H2].
    apply setitem_snap in E as (E1 & E2 & _). split; congruence.
Qed.

(** Among the stations of a table, either none snaps to a cell or one of
    them is the last to do so. *)
Lemma last_snap (A : Type) (d : DataArray A) (c : Z * Z) (rows : list Station) :
  (forall k row, nth_error rows k = Some row -> snap d row <> c)
  \/ exists k row,
      nth_error rows k = Some row /\ snap d row = c
      /\ forall k' row', (k < k')%nat -> nth_error rows k' = Some row' ->
                         snap d row' <> c.
Proof.
  induction rows as [| row0 rest IH].
  - left. intros [| k] row H; discriminate.
  - destruct IH as [Hnone | (k & row & Hk & Hc & Hlast)].
    + destruct (cell_eq_dec (snap d row0) c) as [E | N].
      * right. exists 0%nat, row0. repeat split; try assumption.
        intros [| k'] row' Hlt Hk'; [lia |]. cbn in Hk'. eauto.
      * left. intros [| k] row H; cbn in H; [congruence | eauto].
    + right. exists (S k), row. repeat split; try assumption.
      intros [| k'] row' Hlt Hk'; [lia |]. cbn in Hk'.
      apply (Hlast k' row'); [lia | assumption].
Qed.

(** The value of a cell after the stations were written: the id of the
    last station that snaps to it, and the earlier value when none does. *)
Lemma snap_stations_values (rows : list Station) :
  forall (raster raster' : DataArray Z) (resid : Z) (c : Z * Z),
    snap_stations raster resid rows = Ok raster' ->
    (forall k row,
        nth_error rows k = Some row -> snap raster row = c ->
        (forall k' row', (k < k')%nat -> nth_error rows k' = Some row' ->
                         snap raster row' <> c) ->
        values raster' (snd c) (fst c) = Some (resid + Z.of_nat k))
    /\ ((forall k row, nth_error rows k = Some row -> snap raster row <> c) ->
        values raster' (snd c) (fst c) = values raster (snd c) (fst c)).
Proof.
  induction rows as [| row0 rest IH]; intros raster raster' resid c H; cbn in H.
  - injection H as <-. split; [intros [| k] row Hk; discriminate | reflexivity].
  - destruct (setitem raster _ _ resid) as [r1 |] eqn:E; [| discriminate].
    cbn in H. apply setitem_snap in E as (E1 & E2 & Ev).
    assert (Hsnap : forall row, snap r1 row = snap raster row).
    { intros row. now apply snap_same_axes. }
    destruct (IH _ _ _ c H) as [IH1 IH2]. split.
    + intros [| k] row Hk Hc Hlast.
      * injection Hk as <-. rewrite IH2.
        -- rewrite Ev, <- Hc, !Z.eqb_refl. cbn. f_equal. lia.
        -- intros k' row' Hk'. rewrite Hsnap.
           apply (Hlast (S k') row'); [lia | exact Hk'].
      * cbn in Hk. rewrite (IH1 k row Hk).
        -- f_equal. lia.
        -- now rewrite Hsnap.
        -- intros k' row' Hlt Hk'. rewrite Hsnap.
           apply (Hlast (S k') row'); [lia | exact Hk'].
    + intros Hnone. rewrite IH2.
      * rewrite Ev. destruct c as [x y]. cbn [fst snd].
        destruct ((y =? snd (snap raster row0)) && (x =? fst (snap raster row0)))
          eqn:Eq; [| reflexivity].
        apply andb_true_iff in Eq as [Hy Hx]. apply Z.eqb_eq in Hy, Hx.
        elim (Hnone 0%nat row0 eq_refl).
        destruct (snap raster row0). cbn in *. congruence.
      * intros k row Hk. rewrite Hsnap. apply (Hnone (S k) row Hk).
Qed.

(** On a raster that took a write the cell of any station is inside the
    shape. *)
Lemma snap_inside (band : DataArray Z) (row : Station) :
  ys band <> [] -> xs band <> [] ->
  0 <= fst (snap band row) < size_x band
  /\ 0 <= snd (snap band row) < size_y band.
Proof.
  intros Hy Hx. unfold snap, size_x, size_y. cbn.
  split; now apply get_indexer_range.
Qed.

Lemma snap_stations_nonempty (raster raster' : DataArray Z) (resid : Z)
  (row : Station) (rest : list Station) :
  snap_stations raster resid (row :: rest) = Ok raster' ->
  ys raster <> [] /\ xs raster <> [].
Proof.
  cbn. unfold setitem, size_y, size_x.
  destruct (ys raster) as [| a l]; [cbn; discriminate |].
  destruct (xs raster) as [| b m].
  - destruct (norm_index _ _); cbn; discriminate.
  - intros _. split; discriminate.
Qed.

End LocationRaster.

Section Overwrite.

Import GenerateNetwork Inputs.
Open Scope Z_scope.

(** The ids of the location raster: the cell of the last station of a
    crowd holds that station's id, and an id found in a cell is the id of
    the last station that snaps to the cell. *)
Lemma location_raster_ids (band : DataArray Z) (reservoirs : list Station)
  (raster : DataArray Z) :
  reservoir_location_raster band reservoirs = Ok raster ->
  (forall (j : nat) (rj : Station),
      nth_error reservoirs j = Some rj ->
      (forall k rk, (j < k)%nat -> nth_error reservoirs k = Some rk ->
                    snap band rk <> snap band rj) ->
      isel raster (fst (snap band rj)) (snd (snap band rj))
      = Ok (Some (Z.of_nat j)))
  /\ (forall (x y id : Z),
         isel raster x y = Ok (Some id) ->
         exists k row,
           id = Z.of_nat k /\ nth_error reservoirs k = Some row
           /\ norm_index (size_x band) x = Some (fst (snap band row))
           /\ norm_index (size_y band) y = Some (snd (snap band row))
           /\ forall k' row', (k < k')%nat ->
                              nth_error reservoirs k' = Some row' ->
                              snap band row' <> snap band row).
Proof.
  unfold reservoir_location_raster. intros Hr.
  destruct (snap_stations_axes _ _ _ _ Hr) as [Hys Hxs]. cbn in Hys, Hxs.
  split.
  - intros j rj Hj Hlast.
    destruct reservoirs as [| r0 rest] eqn:Eres; [destruct j; discriminate |].
    destruct (snap_stations_nonempty _ _ _ _ _ Hr) as [Ny Nx]. cbn in Ny, Nx.
    destruct (snap_inside band rj Ny Nx) as [Hx Hy].
    unfold isel, size_y, size_x. rewrite Hys, Hxs.
    fold (size_y band) (size_x band).
    rewrite !norm_index_inside by assumption. do 2 f_equal.
    destruct (snap_stations_values _ _ _ _ (snap band rj) Hr) as [H1 _].
    rewrite (H1 j rj Hj); [f_equal; lia | reflexivity | exact Hlast].
  - intros x y id Hsel. unfold isel, size_y, size_x in Hsel.
    rewrite Hys, Hxs in Hsel. fold (size_y band) (size_x band) in Hsel.
    destruct (norm_index (size_y band) y) as [j0 |] eqn:Ey; [| discriminate].
    destruct (norm_index (size_x band) x) as [i0 |] eqn:Ex; [| discriminate].
    injection Hsel as Hv.
    destruct (snap_stations_values _ _ _ _ (i0, j0) Hr) as [H1 H2].
    cbn [fst snd] in H1, H2.
    destruct (last_snap Z band (i0, j0) reservoirs)
      as [Hnone | (k & row & Hk & Hc & Hlast)].
    + rewrite (H2 Hnone) in Hv. discriminate.
    + rewrite (H1 k row Hk Hc Hlast) in Hv. injection Hv as <-.
      exists k, row. rewrite Hc. cbn. repeat split; try assumption; try lia.
Qed.

(** C6: when stations snap to the same cell, the location raster keeps
    at that cell the id of the last of them in table order; and whatever
    id a cell holds is the one id of the last station that snaps to it. *)
Theorem later_station_overwrites (band : DataArray Z) (reservoirs : list Station)
  (raster : DataArray Z) :
  reservoir_location_raster band reservoirs = Ok raster ->
  (forall (i j : nat) (ri rj : Station),
      (i < j)%nat ->
      nth_error reservoirs i = Some ri -> nth_error reservoirs j = Some rj ->
      snap band ri = snap band rj ->
      (forall k rk, (j < k)%nat -> nth_error reservoirs k = Some rk ->
                    snap band rk <> snap band rj) ->
      isel raster (fst (snap band ri)) (snd (snap band ri))
      = Ok (Some (Z.of_nat j)))
  /\ (forall (x y id : Z),
         isel raster x y = Ok (Some id) ->
         exists k row,
           id = Z.of_nat k /\ nth_error reservoirs k = Some row
           /\ norm_index (size_x band) x = Some (fst (snap band row))
           /\ norm_index (size_y band) y = Some (snd (snap band row))
           /\ forall k' row', (k < k')%nat ->
                              nth_error reservoirs k' = Some row' ->
                              snap band row' <> snap band row).
Proof.
  intros Hr. destruct (location_raster_ids _ _ _ Hr) as [H1 H2]. split.
  - intros i j ri rj _ _ Hj -> Hlast. now apply H1.
  - exact H2.
Qed.

Lemma later_station_overwrites_witness :
  isel (raster_of east_row crowded) 0 0 = Ok (Some 1).
Proof.
  refine (proj1 (later_station_overwrites east_row crowded
                   (raster_of east_row crowded) eq_refl)
            0%nat 1%nat (mkStation "A" (1 # 5) 0) (mkStation "B" (- (3 # 1)) 0)
            _ eq_refl eq_refl eq_refl _).
  - lia.
  - intros [| [| [| [| k]]]] rk Hlt Hk; try lia; try discriminate.
    injection Hk as <-. discriminate.
Defined.

End Overwrite.

Section Edges.

Import GenerateNetwork Inputs.
Open Scope Z_scope.

(** A pass that ends the loop with an edge has just appended the cell
    whose location-raster value is the target. *)
Lemma step_Break_edge_inv (band raster : DataArray Z) (s : TraceState)
  (v : list (Z * Z)) (r : Z) :
  step band raster s = Break v (edge_to r) ->
  exists last,
    v = visited s ++ [last]
    /\ isel raster (fst last) (snd last) = Ok (Some r).
Proof.
  unfold step. destruct (operations (current_pix s)) as [[dy dx] |]; [| discriminate].
  destruct (in_visited _ _); [discriminate |].
  destruct (isel band _ _) as [[pix |] | ex]; try discriminate.
  destruct (isel raster _ _) as [[r' |] | ex] eqn:Er; try discriminate.
  - intros [= <- <-]. eexists. split; [reflexivity | exact Er].
  - destruct ex; discriminate.
Qed.

(** A trace that ends with an edge to [r] went through cells without a
    reservoir and stopped on the first cell that holds one, [r]. *)
Lemma while_not_END_edge (band raster : DataArray Z) (fuel : nat) :
  forall (s : TraceState) (t : Trace) (r : Z),
    while_not_END band raster fuel s = Some t ->
    outcome t = Ok (edge_to r) ->
    exists mid last,
      cells t = visited s ++ mid ++ [last]
      /\ isel raster (fst last) (snd last) = Ok (Some r)
      /\ (forall c, In c mid -> isel raster (fst c) (snd c) = Ok None)
      /\ iterations t = S (List.length mid).
Proof.
  induction fuel as [| fuel IH]; intros s t r H Ho; [discriminate |].
  cbn in H. destruct (step band raster s) as [s' | v e | v ex] eqn:Hstep.
  - destruct (while_not_END band raster fuel s') as [t' |] eqn:E; [| discriminate].
    injection H as <-. cbn in Ho |- *.
    destruct (IH _ _ _ E Ho) as (mid & last & Hc & Hl & Hm & Hi).
    destruct (step_Continue_inv _ _ _ _ Hstep)
      as (dy & dx & pix & _ & _ & _ & Hnone & ->).
    cbn in Hc. exists ((idxx s + dx, idxy s + dy) :: mid), last.
    repeat split; try assumption.
    + now rewrite Hc, <- app_assoc.
    + intros c [<- | Hc']; [exact Hnone | now apply Hm].
    + cbn. now rewrite Hi.
  - injection H as <-. cbn in Ho. injection Ho as ->.
    destruct (step_Break_edge_inv _ _ _ _ _ Hstep) as (last & -> & Hl).
    exists [], last. repeat split; try assumption. intros c [].
  - injection H as <-. discriminate.
Qed.

(** The outgoing edges of an id in the returned graph: none, or the one
    edge the trace of that station ended with. *)
Lemma out_edges_cases (band : DataArray Z) (reservoirs : list Station)
  (elevation_raster : option (DataArray Q)) (net : Network)
  (raster : DataArray Z) (u : Z) :
  generate_network band reservoirs elevation_raster = Some (Ok net) ->
  reservoir_location_raster band reservoirs = Ok raster ->
  out_edges (graph net) u = []
  \/ exists (k : nat) row t r,
      u = Z.of_nat k /\ nth_error reservoirs k = Some row
      /\ trace_node band raster (trace_fuel band) row = Some t
      /\ outcome t = Ok (edge_to r)
      /\ out_edges (graph net) u = [(u, r)].
Proof.
  intros Hnet Hr.
  destruct (Z_lt_ge_dec u 0) as [Hneg | Hpos];
    [left; apply (generate_network_out_edges_outside _ _ _ _ _ Hnet); lia |].
  destruct (nth_error reservoirs (Z.to_nat u)) as [row |] eqn:Hk.
  - destruct (generate_network_out_edges _ _ _ _ _ _ _ Hnet Hr Hk)
      as (t & e & Ht & Ho & Hedges).
    rewrite Z2Nat.id in Hedges by lia.
    destruct e as [| r]; [now left | right].
    exists (Z.to_nat u), row, t, r. rewrite Z2Nat.id by lia. auto.
  - left. apply (generate_network_out_edges_outside _ _ _ _ _ Hnet).
    apply nth_error_None in Hk. unfold len. lia.
Qed.

(** An edge of the returned graph is the single outgoing edge of its
    source, found by the trace of that station on the first cell with a
    reservoir in it. *)
Lemma edge_found_by_trace (band : DataArray Z) (reservoirs : list Station)
  (elevation_raster : option (DataArray Q)) (net : Network) (u v : Z) :
  generate_network band reservoirs elevation_raster = Some (Ok net) ->
  In (u, v) (edges (graph net)) ->
  out_edges (graph net) u = [(u, v)]
  /\ exists raster row t mid last,
      reservoir_location_raster band reservoirs = Ok raster
      /\ 0 <= u /\ nth_error reservoirs (Z.to_nat u) = Some row
      /\ trace_node band raster (trace_fuel band) row = Some t
      /\ outcome t = Ok (edge_to v)
      /\ cells t = snap band row :: mid ++ [last]
      /\ isel raster (fst last) (snd last) = Ok (Some v)
      /\ forall c, In c mid -> isel raster (fst c) (snd c) = Ok None.
Proof.
  intros Hnet Hin.
  destruct (generate_network_Ok_inv _ _ _ _ Hnet) as (raster & Hr & _).
  assert (Hin' : In (u, v) (out_edges (graph net) u)).
  { apply out_edges_In. auto. }
  destruct (out_edges_cases _ _ _ _ _ u Hnet Hr)
    as [E | (k & row & t & r & -> & Hk & Ht & Ho & E)];
    rewrite E in Hin'; [destruct Hin' |].
  destruct Hin' as [[= <-] | []]. split; [exact E |].
  rewrite trace_node_unfold in Ht.
  destruct (isel band (fst (snap band row)) (snd (snap band row)))
    as [[pix |] | ex] eqn:Estart.
  - destruct (while_not_END_edge _ _ _ _ _ _ Ht Ho)
      as (mid & last & Hc & Hl & Hm & _).
    exists raster, row, t, mid, last. rewrite Nat2Z.id.
    repeat split; try assumption; try lia.
    rewrite trace_node_unfold, Estart. exact Ht.
  - injection Ht as <-. discriminate.
  - injection Ht as <-. discriminate.
Qed.

(** C4: in the returned graph no node has more than one outgoing edge;
    an edge leaves the station whose trace found it for the id held by
    the first cell of that trace with a reservoir in it, where the trace
    stopped; incoming edges are not limited, as the three stations on
    [confluence] show. *)
Theorem at_most_one_outgoing_edge :
  (forall (band : DataArray Z) (reservoirs : list Station)
          (elevation_raster : option (DataArray Q)) (net : Network),
      generate_network band reservoirs elevation_raster = Some (Ok net) ->
      (forall u, (out_degree (graph net) u <= 1)%nat)
      /\ forall u v,
          In (u, v) (edges (graph net)) ->
          out_edges (graph net) u = [(u, v)]
          /\ exists raster row t mid last,
              reservoir_location_raster band reservoirs = Ok raster
              /\ 0 <= u /\ nth_error reservoirs (Z.to_nat u) = Some row
              /\ trace_node band raster (trace_fuel band) row = Some t
              /\ outcome t = Ok (edge_to v)
              /\ cells t = snap band row :: mid ++ [last]
              /\ isel raster (fst last) (snd last) = Ok (Some v)
              /\ forall c, In c mid -> isel raster (fst c) (snd c) = Ok None)
  /\ exists (reservoirs : list Station) (net : Network),
      generate_network confluence reservoirs None = Some (Ok net)
      /\ in_edges (graph net) 1 = [(0, 1); (2, 1)].
Proof.
  split.
  - intros band reservoirs elevation_raster net Hnet.
    destruct (generate_network_Ok_inv _ _ _ _ Hnet) as (raster & Hr & _).
    split.
    + intros u. unfold out_degree.
      destruct (out_edges_cases _ _ _ _ _ u Hnet Hr)
        as [-> | (k & row & t & r & _ & _ & _ & _ & ->)]; cbn; lia.
    + intros u v Hin. exact (edge_found_by_trace _ _ _ _ u v Hnet Hin).
  - exists [station "A" 0 0; station "B" 1 0; station "C" 2 0].
    eexists. split; vm_compute; reflexivity.
Qed.

Lemma at_most_one_outgoing_edge_witness :
  (out_degree
     (graph (network_of confluence
               [station "A" 0 0; station "B" 1 0; station "C" 2 0] None)) 2
   <= 1)%nat.
Proof.
  apply (proj1 (proj1 at_most_one_outgoing_edge confluence
                  [station "A" 0 0; station "B" 1 0; station "C" 2 0] None
                  (network_of confluence
                     [station "A" 0 0; station "B" 1 0; station "C" 2 0] None)
                  eq_refl)).
Defined.

End Edges.

Section Elevation.

Import GenerateNetwork Inputs.
Open Scope Z_scope.

Lemma closer_true (target a b : Q) :
  closer target a b = true -> (dist a target <= dist b target)%Q.
Proof.
  unfold closer. intros H. apply orb_true_iff in H as [H | H].
  - apply negb_true_iff in H.
    destruct (Qlt_le_dec (dist a target) (dist b target)) as [Hlt | Hle].
    + now apply Qlt_le_weak.
    + apply Qle_bool_iff in Hle. congruence.
  - apply andb_true_iff in H as [H _]. apply Qeq_bool_iff in H.
    rewrite H. apply Qle_refl.
Qed.

Lemma closer_false (target a b : Q) :
  closer target a b = false -> (dist b target <= dist a target)%Q.
Proof.
  unfold closer. intros H. apply orb_false_iff in H as [H _].
  apply negb_false_iff in H. now apply Qle_bool_iff.
Qed.

Lemma len_app_one (A : Type) (l : list A) (a : A) : len (l ++ [a]) = len l + 1.
Proof. unfold len. rewrite length_app. cbn. lia. Qed.

(** The scan keeps a label that is at least as close to the target as
    every label seen. *)
Lemma nearest_from_optimal (index : list Q) (target : Q) :
  forall (prefix : list Q) (best : Z) (bestv : Q),
    0 <= best ->
    nth_error prefix (Z.to_nat best) = Some bestv ->
    (forall a, In a prefix -> (dist bestv target <= dist a target)%Q) ->
    exists v,
      nth_error (prefix ++ index)
        (Z.to_nat (nearest_from index target (len prefix) best bestv)) = Some v
      /\ forall a, In a (prefix ++ index) -> (dist v target <= dist a target)%Q.
Proof.
  induction index as [| a rest IH]; intros prefix best bestv Hpos Hnth Hopt.
  - cbn. rewrite app_nil_r. eauto.
  - cbn [nearest_from].
    replace (prefix ++ a :: rest) with ((prefix ++ [a]) ++ rest)
      by (now rewrite <- app_assoc).
    rewrite <- len_app_one with (a := a).
    destruct (closer target a bestv) eqn:Ec.
    + apply IH.
      * unfold len. lia.
      * unfold len. rewrite Nat2Z.id, nth_error_app2 by lia.
        now rewrite Nat.sub_diag.
      * intros a' Ha'. apply in_app_iff in Ha' as [Ha' | [<- | []]].
        -- eapply Qle_trans; [apply closer_true; exact Ec | now apply Hopt].
        -- apply Qle_refl.
    + apply IH.
      * assumption.
      * rewrite nth_error_app1; [assumption |].
        apply nth_error_Some. congruence.
      * intros a' Ha'. apply in_app_iff in Ha' as [Ha' | [<- | []]].
        -- now apply Hopt.
        -- now apply closer_false.
Qed.

(** The nearest indexer answers with the position of a label that no
    other label of the axis beats, for targets inside and outside the
    range of the axis alike. *)
Lemma get_indexer_nearest (index : list Q) (target : Q) :
  index <> [] ->
  exists v,
    nth_error index (Z.to_nat (get_indexer index target)) = Some v
    /\ forall a, In a index -> (dist v target <= dist a target)%Q.
Proof.
  destruct index as [| a0 rest]; [congruence | intros _].
  unfold get_indexer.
  apply (nearest_from_optimal rest target [a0] 0 a0); [lia | reflexivity |].
  intros a [<- | []]. apply Qle_refl.
Qed.

(** Nearest-neighbour selection on a raster with labels on both axes
    raises nothing. *)
Lemma sel_nearest_total (A : Type) (d : DataArray A) (x y : Q) :
  ys d <> [] -> xs d <> [] ->
  sel_nearest d x y
  = Ok (values d (get_indexer (ys d) y) (get_indexer (xs d) x)).
Proof.
  intros Hy Hx. unfold sel_nearest.
  pose proof (get_indexer_range _ y Hy) as Ry.
  pose proof (get_indexer_range _ x Hx) as Rx.
  replace (get_indexer (xs d) x <? 0) with false by (symmetry; apply Z.ltb_ge; lia).
  replace (get_indexer (ys d) y <? 0) with false by (symmetry; apply Z.ltb_ge; lia).
  cbn. unfold isel, size_y, size_x. now rewrite !norm_index_inside.
Qed.

Lemma sample_rows_total (elev : DataArray Q) (pts : list (Z * NodeAttrs)) :
  ys elev <> [] -> xs elev <> [] ->
  sample_rows elev pts
  = Ok (map (fun p => values elev (get_indexer (ys elev) (attr_y (snd p)))
                        (get_indexer (xs elev) (attr_x (snd p)))) pts).
Proof.
  intros Hy Hx. induction pts as [| [id a] rest IH]; [reflexivity |].
  cbn. now rewrite sel_nearest_total, IH.
Qed.

(** On a node table with rows and an elevation raster with labels on
    both axes the sampling raises nothing. *)
Lemma sample_elevation_total (elev : DataArray Q) (pts : list (Z * NodeAttrs)) :
  pts <> [] -> ys elev <> [] -> xs elev <> [] ->
  sample_elevation elev pts
  = Ok (map (fun p => values elev (get_indexer (ys elev) (attr_y (snd p)))
                        (get_indexer (xs elev) (attr_x (snd p)))) pts).
Proof.
  intros Hpts Hy Hx. destruct pts as [| p rest]; [congruence |].
  unfold sample_elevation. now apply sample_rows_total.
Qed.

Lemma generate_network_with_elevation (band : DataArray Z)
  (reservoirs : list Station) (elev : DataArray Q) (net : Network) :
  generate_network band reservoirs None = Some (Ok net) ->
  generate_network band reservoirs (Some elev)
  = Some (col <- sample_elevation elev (graph_nodes_to_gdf (graph net));;
          Ok (mkNetwork (graph net) (Some col))).
Proof.
  unfold generate_network.
  destruct (reservoir_location_raster band reservoirs) as [raster | ex];
    [| discriminate].
  cbv zeta.
  destruct (trace_nodes band raster _ _ 0 reservoirs) as [[G | ex] |];
    try discriminate.
  now intros [= <-].
Qed.

(** A station far from [far_elevation]: the elevation raster spans the
    coordinates 10 to 11, the station sits at the origin, and the call
    returns a network whose elevation column holds the value of the
    nearest corner cell. *)
Lemma elevation_outside_extent_is_sampled :
  graph_nodes_to_gdf
    (graph (network_of back_and_forth [station "A" 0 0] (Some far_elevation)))
  = [(0, mkNodeAttrs (inject_Z 0) (inject_Z 0) "A")]
  /\ outside_extent far_elevation (inject_Z 0) (inject_Z 0) = true
  /\ generate_network back_and_forth [station "A" 0 0] (Some far_elevation)
     = Some (Ok (mkNetwork
                   (graph (network_of back_and_forth [station "A" 0 0] None))
                   (Some [Some (100 # 1)%Q]))).
Proof. repeat split; vm_compute; reflexivity. Qed.

End Elevation.

Section InsideTheGrid.

Import GenerateNetwork Inputs.
Open Scope Z_scope.

Variables band raster : DataArray Z.

(** What a pass does to the visited list: nothing, or one new cell at
    its end. *)
Lemma step_appends (s : TraceState) :
  match step band raster s with
  | Continue s' =>
      exists c, visited s' = visited s ++ [c] /\ ~ In c (visited s)
  | Break v _ | Throw v _ =>
      v = visited s \/ exists c, v = visited s ++ [c] /\ ~ In c (visited s)
  end.
Proof.
  unfold step. destruct (operations (current_pix s)) as [[dy dx] |]; [| now left].
  destruct (in_visited _ _) eqn:Ev; [now left |].
  apply in_visited_not_In in Ev.
  destruct (isel band _ _) as [[pix |] | ex]; [| right; eauto | right; eauto].
  destruct (isel raster _ _) as [[r |] | ex]; [right; eauto | cbn; eauto |].
  destruct ex; right; eauto.
Qed.

Lemma NoDup_snoc (c : Z * Z) (l : list (Z * Z)) :
  NoDup l -> ~ In c l -> NoDup (l ++ [c]).
Proof.
  intros Hnd Hc. apply NoDup_app; [assumption | repeat constructor; intros [] |].
  intros c' Hc' [<- | []]. contradiction.
Qed.

(** The cells of a finished trace: the visited list it started from,
    extended, without a repeated position. *)
Lemma while_not_END_cells (fuel : nat) :
  forall (s : TraceState) (t : Trace),
    while_not_END band raster fuel s = Some t ->
    NoDup (visited s) ->
    NoDup (cells t) /\ exists l, cells t = visited s ++ l.
Proof.
  induction fuel as [| fuel IH]; intros s t H Hnd; [discriminate |].
  cbn in H. pose proof (step_appends s) as Hs.
  destruct (step band raster s) as [s' | v e | v ex].
  - destruct (while_not_END band raster fuel s') as [t' |] eqn:E; [| discriminate].
    injection H as <-. cbn. destruct Hs as (c & Hv & Hc).
    destruct (IH _ _ E) as (Hnd' & l & Hl).
    { rewrite Hv. now apply NoDup_snoc. }
    split; [assumption |]. exists (c :: l). now rewrite Hl, Hv, <- app_assoc.
  - injection H as <-. cbn. destruct Hs as [-> | (c & -> & Hc)].
    + split; [assumption | exists []; now rewrite app_nil_r].
    + split; [now apply NoDup_snoc | eauto].
  - injection H as <-. cbn. destruct Hs as [-> | (c & -> & Hc)].
    + split; [assumption | exists []; now rewrite app_nil_r].
    + split; [now apply NoDup_snoc | eauto].
Qed.

Lemma in_all_cells (c : Z * Z) :
  In c (all_cells band)
  <-> 0 <= fst c < size_x band /\ 0 <= snd c < size_y band.
Proof.
  unfold all_cells, size_x, size_y, len. destruct c as [x y]. cbn [fst snd].
  rewrite in_prod_iff, !in_map_iff. split.
  - intros [(i & <- & Hi) (j & <- & Hj)]. apply in_seq in Hi, Hj. lia.
  - intros [Hx Hy]. split; [exists (Z.to_nat x) | exists (Z.to_nat y)];
      (split; [lia | apply in_seq; lia]).
Qed.

Lemma length_all_cells :
  Z.of_nat (List.length (all_cells band)) = size_y band * size_x band.
Proof.
  unfold all_cells, size_x, size_y, len.
  rewrite length_prod, !length_map, !length_seq. lia.
Qed.

(** While every position a trace takes is non-negative, its passes are
    bounded by the number of cells. *)
Lemma while_not_END_inside_bound (fuel : nat) :
  forall (s : TraceState) (t : Trace),
    while_not_END band raster fuel s = Some t ->
    visited_ok band s ->
    (forall c, In c (cells t) -> 0 <= fst c /\ 0 <= snd c) ->
    Z.of_nat (iterations t) + len (visited s) <= size_y band * size_x band + 1.
Proof.
  induction fuel as [| fuel IH]; intros s t H Hok Hpos; [discriminate |].
  assert (Hlen : len (visited s) <= size_y band * size_x band).
  { destruct (while_not_END_cells _ _ _ H (proj1 Hok)) as (_ & l & Hl).
    rewrite <- length_all_cells. unfold len. apply inj_le.
    apply NoDup_incl_length; [exact (proj1 Hok) |].
    intros c Hc. apply in_all_cells.
    assert (Hc' : In c (cells t)) by (rewrite Hl; apply in_app_iff; now left).
    apply Hpos in Hc'. apply (proj2 Hok) in Hc. unfold in_box in Hc. lia. }
  cbn in H. destruct (step band raster s) as [s' | v e | v ex] eqn:Hstep.
  - destruct (while_not_END band raster fuel s') as [t' |] eqn:E; [| discriminate].
    injection H as <-. cbn [iterations cells] in *.
    destruct (step_Continue_visited_ok _ _ _ _ Hstep Hok) as [Hok' Hl'].
    specialize (IH _ _ E Hok' Hpos). unfold len in *. lia.
  - injection H as <-. cbn [iterations]. lia.
  - injection H as <-. cbn [iterations]. lia.
Qed.

(** A trace that never takes a negative position makes at most rows
    times columns passes. *)
Lemma trace_node_inside_bound (fuel : nat) (row : Station) (t : Trace) :
  trace_node band raster fuel row = Some t ->
  (forall c, In c (cells t) -> 0 <= fst c /\ 0 <= snd c) ->
  Z.of_nat (iterations t) <= size_y band * size_x band.
Proof.
  rewrite trace_node_unfold.
  destruct (isel band _ _) as [[pix |] | ex] eqn:E.
  - intros H Hpos.
    pose proof (while_not_END_inside_bound _ _ _ H
                  (start_state_ok band row pix _ E) Hpos) as Hb.
    unfold len in Hb. cbn in Hb. lia.
  - intros [= <-] _. cbn. unfold size_y, size_x, len. lia.
  - intros [= <-] _. cbn. unfold size_y, size_x, len. lia.
Qed.

End InsideTheGrid.

Section SelfLoops.

Import GenerateNetwork Inputs.
Open Scope Z_scope.

Lemma norm_index_nonneg (n i k : Z) :
  norm_index n i = Some k -> 0 <= i -> k = i.
Proof.
  unfold norm_index. intros H Hi.
  destruct ((0 <=? i) && (i <? n)); [congruence |].
  destruct ((- n <=? i) && (i <? 0)) eqn:E; [| discriminate].
  apply andb_true_iff in E. lia.
Qed.

(** An edge from a node to itself comes only from a trace that took a
    negative position, one that NumPy reads from the far end of the axis:
    a trace that stays on non-negative positions never meets the cell it
    started from. *)
Lemma self_loop_needs_wrap (band : DataArray Z) (reservoirs : list Station)
  (elevation_raster : option (DataArray Q)) (net : Network) (u : Z) :
  generate_network band reservoirs elevation_raster = Some (Ok net) ->
  In (u, u) (edges (graph net)) ->
  exists raster row t last,
    reservoir_location_raster band reservoirs = Ok raster
    /\ nth_error reservoirs (Z.to_nat u) = Some row
    /\ trace_node band raster (trace_fuel band) row = Some t
    /\ In last (cells t)
    /\ (fst last < 0 \/ snd last < 0).
Proof.
  intros Hnet Hin.
  destruct (edge_found_by_trace _ _ _ _ _ _ Hnet Hin)
    as (_ & raster & row & t & mid & last & Hr & Hu & Hrow & Ht & Ho & Hc & Hl & _).
  exists raster, row, t, last. repeat split; try assumption.
  { rewrite Hc. right. apply in_app_iff. right. now left. }
  destruct (proj2 (location_raster_ids _ _ _ Hr) _ _ _ Hl)
    as (k & row' & Hk & Hrow' & Hx & Hy & _).
  assert (k = Z.to_nat u) by lia. subst k.
  assert (row' = row) by congruence. subst row'.
  assert (Hnd : NoDup (cells t)).
  { rewrite trace_node_unfold in Ht.
    destruct (isel band (fst (snap band row)) (snd (snap band row)))
      as [[pix |] | ex].
    - apply (while_not_END_cells _ _ _ _ _ Ht). cbn.
      repeat constructor. intros [].
    - injection Ht as <-. discriminate.
    - injection Ht as <-. discriminate. }
  rewrite Hc in Hnd. apply NoDup_cons_iff in Hnd as [Hnotin _].
  destruct (Z_lt_ge_dec (fst last) 0) as [Hneg | Hfst]; [now left |].
  destruct (Z_lt_ge_dec (snd last) 0) as [Hneg | Hsnd]; [now right |].
  exfalso. apply Hnotin. apply in_app_iff. right. left.
  apply norm_index_nonneg in Hx; [| lia].
  apply norm_index_nonneg in Hy; [| lia].
  destruct last as [x y], (snap band row) as [x0 y0]. cbn in *. congruence.
Qed.

End SelfLoops.

(** * Further properties of the network builder *)

Section TraceBounds.

Import GenerateNetwork Inputs.
Open Scope Z_scope.

(** X1: the trace of any station on any pair of rasters ends: within the
    fuel of [generate_network] it makes at most four passes per cell of
    the flow-direction raster, it never takes the same raw position
    twice, and more fuel gives the same trace. *)
Theorem trace_passes_bounded (band raster : DataArray Z) (row : Station) :
  exists t,
    trace_node band raster (trace_fuel band) row = Some t
    /\ Z.of_nat (iterations t) <= 4 * size_y band * size_x band
    /\ NoDup (cells t)
    /\ forall fuel t', trace_node band raster fuel row = Some t' -> t' = t.
Proof.
  destruct (trace_node_terminates band raster row) as [t Ht].
  exists t. split; [assumption |].
  assert (Hsize : 0 <= 4 * size_y band * size_x band).
  { unfold size_y, size_x, len. lia. }
  rewrite trace_node_unfold in Ht.
  destruct (isel band (fst (snap band row)) (snd (snap band row)))
    as [[pix |] | ex] eqn:E.
  - pose proof (start_state_ok band row pix _ E) as Hok.
    pose proof (while_not_END_iterations _ _ _ _ _ Hok Ht) as Hit.
    unfold trace_fuel in Hit. simpl visited in Hit. simpl List.length in Hit.
    destruct (while_not_END_cells _ _ _ _ _ Ht (proj1 Hok)) as [Hnd _].
    split; [lia | split; [assumption |]].
    intros fuel t'. rewrite trace_node_unfold, E. intros Ht'.
    exact (while_not_END_fuel_irrelevant _ _ _ _ _ _ _ Ht' Ht).
  - injection Ht as <-. cbn [iterations cells].
    split; [lia | split; [repeat constructor; intros [] |]].
    intros fuel t'. rewrite trace_node_unfold, E. now intros [= <-].
  - injection Ht as <-. cbn [iterations cells].
    split; [lia | split; [repeat constructor; intros [] |]].
    intros fuel t'. rewrite trace_node_unfold, E. now intros [= <-].
Qed.

(** X2: a trace all of whose positions are non-negative, one that never
    leaves the raster through its top or left edge, makes at most rows
    times columns passes and visits at most one position more than there
    are cells. *)
Theorem trace_inside_grid_bounded (band raster : DataArray Z) (row : Station)
  (t : Trace) :
  trace_node band raster (trace_fuel band) row = Some t ->
  (forall c, In c (cells t) -> 0 <= fst c /\ 0 <= snd c) ->
  Z.of_nat (iterations t) <= size_y band * size_x band
  /\ len (cells t) <= Z.of_nat (iterations t) + 1.
Proof.
  intros Ht Hpos. split; [exact (trace_node_inside_bound _ _ _ _ _ Ht Hpos) |].
  clear Hpos. rewrite trace_node_unfold in Ht.
  destruct (isel band _ _) as [[pix |] | ex].
  - remember (start_state band row pix) as s eqn:Es.
    assert (Hlen : len (visited s) = 1) by (subst s; reflexivity).
    clear Es. revert s t Ht Hlen.
    generalize (trace_fuel band) as fuel.
    assert (Hgen : forall fuel s t,
               while_not_END band raster fuel s = Some t ->
               len (cells t) <= Z.of_nat (iterations t) + len (visited s)).
    { induction fuel as [| fuel IH]; intros s t H; [discriminate |].
      cbn in H. pose proof (step_appends band raster s) as Hs.
      destruct (step band raster s) as [s' | v e | v ex].
      - destruct (while_not_END band raster fuel s') as [t' |] eqn:E;
          [| discriminate].
        injection H as <-. cbn [cells iterations].
        destruct Hs as (c & Hv & _). specialize (IH _ _ E).
        rewrite Hv, len_app_one in IH. lia.
      - injection H as <-. cbn [cells iterations].
        destruct Hs as [-> | (c & -> & _)]; rewrite ?len_app_one; lia.
      - injection H as <-. cbn [cells iterations].
        destruct Hs as [-> | (c & -> & _)]; rewrite ?len_app_one; lia. }
    intros fuel s t Ht Hlen. specialize (Hgen _ _ _ Ht). lia.
  - injection Ht as <-. cbn. lia.
  - injection Ht as <-. cbn. lia.
Qed.

Lemma trace_inside_grid_bounded_witness :
  Z.of_nat 2 <= size_y confluence * size_x confluence
  /\ len [(0, 0); (1, 0)] <= Z.of_nat 2 + 1.
Proof.
  refine (trace_inside_grid_bounded confluence
            (raster_of confluence [station "A" 0 0; station "C" 2 0])
            (station "A" 0 0)
            (mkTrace 2 [(0, 0); (1, 0)] (Ok no_edge)) eq_refl _).
  cbn. intros c [<- | [<- | []]]; cbn; lia.
Defined.

End TraceBounds.

Section TraceEnds.

Import GenerateNetwork Inputs.
Open Scope Z_scope.

(** A trace that passes through [s] and raises there in one pass is the
    trace of the station. *)
Lemma trace_node_through_throw (band raster : DataArray Z) (row : Station)
  (pix : Z) (s : TraceState) (v : list (Z * Z)) (ex : Exception) :
  isel band (fst (snap band row)) (snd (snap band row)) = Ok (Some pix) ->
  reaches band raster (start_state band row pix) s ->
  step band raster s = Throw v ex ->
  exists t,
    trace_node band raster (trace_fuel band) row = Some t
    /\ outcome t = Raise ex /\ cells t = v.
Proof.
  intros Hstart Hreach Hstep.
  destruct (trace_node_terminates band raster row) as [t Ht].
  exists t. split; [assumption |].
  rewrite trace_node_unfold, Hstart in Ht.
  assert (H1 : while_not_END band raster 1 s = Some (mkTrace 1 v (Raise ex))).
  { cbn. now rewrite Hstep. }
  destruct (reaches_same_end band raster _ _ Hreach _ _ _ _ Ht H1) as (Ho & Hc & _).
  now rewrite Ho, Hc.
Qed.

(** No network comes back when the trace of one of the stations raises. *)
Lemma raising_trace_no_network (band : DataArray Z) (reservoirs : list Station)
  (elevation_raster : option (DataArray Q)) (raster : DataArray Z)
  (k : nat) (row : Station) (t : Trace) (ex : Exception) (net : Network) :
  reservoir_location_raster band reservoirs = Ok raster ->
  nth_error reservoirs k = Some row ->
  trace_node band raster (trace_fuel band) row = Some t ->
  outcome t = Raise ex ->
  generate_network band reservoirs elevation_raster <> Some (Ok net).
Proof.
  intros Hr Hk Ht Ho Hnet.
  destruct (generate_network_out_edges _ _ _ _ _ _ _ Hnet Hr Hk)
    as (t' & e & Ht' & Ho' & _).
  congruence.
Qed.

(** The stations are traced in table order up to the first trace that
    raises. *)
Lemma trace_nodes_first_failure (band raster : DataArray Z) (rows : list Station) :
  forall (G : GeoDiGraph) (node : Z) (k : nat) (row : Station) (t : Trace)
         (ex : Exception),
    nth_error rows k = Some row ->
    trace_node band raster (trace_fuel band) row = Some t ->
    outcome t = Raise ex ->
    (forall j rowj tj,
        (j < k)%nat -> nth_error rows j = Some rowj ->
        trace_node band raster (trace_fuel band) rowj = Some tj ->
        exists e, outcome tj = Ok e) ->
    trace_nodes band raster (trace_fuel band) G node rows = Some (Raise ex).
Proof.
  induction rows as [| row0 rest IH]; intros G node k row t ex Hk Ht Ho Hbefore.
  - destruct k; discriminate.
  - destruct k as [| k]; cbn.
    + injection Hk as ->. now rewrite Ht, Ho.
    + destruct (trace_node_terminates band raster row0) as [t0 Ht0].
      rewrite Ht0.
      destruct (Hbefore 0%nat row0 t0 (Nat.lt_0_succ k) eq_refl Ht0) as [e ->].
      apply (IH _ _ k row t ex Hk Ht Ho).
      intros j rowj tj Hlt Hj. apply (Hbefore (S j) rowj tj); [lia | exact Hj].
Qed.

(** X3: when no trace takes a negative position, the returned graph has
    no edge from a node to itself. *)
Theorem no_self_loop_inside_grid (band : DataArray Z) (reservoirs : list Station)
  (elevation_raster : option (DataArray Q)) (net : Network)
  (raster : DataArray Z) :
  generate_network band reservoirs elevation_raster = Some (Ok net) ->
  reservoir_location_raster band reservoirs = Ok raster ->
  (forall k row t c,
      nth_error reservoirs k = Some row ->
      trace_node band raster (trace_fuel band) row = Some t ->
      In c (cells t) -> 0 <= fst c /\ 0 <= snd c) ->
  forall u, ~ In (u, u) (edges (graph net)).
Proof.
  intros Hnet Hr Hpos u Hin.
  destruct (self_loop_needs_wrap _ _ _ _ _ Hnet Hin)
    as (raster' & row & t & last & Hr' & Hrow & Ht & Hlast & Hneg).
  assert (raster' = raster) by congruence. subst raster'.
  specialize (Hpos _ _ _ _ Hrow Ht Hlast). lia.
Qed.

Lemma no_self_loop_inside_grid_witness :
  ~ In (1, 1)
      (edges (graph (network_of confluence
                       [station "A" 0 0; station "B" 1 0; station "C" 2 0]
                       None))).
Proof.
  refine (no_self_loop_inside_grid confluence
            [station "A" 0 0; station "B" 1 0; station "C" 2 0] None
            (network_of confluence
               [station "A" 0 0; station "B" 1 0; station "C" 2 0] None)
            (raster_of confluence
               [station "A" 0 0; station "B" 1 0; station "C" 2 0])
            eq_refl eq_refl _ 1).
  intros [| [| [| k]]] row t c Hk Ht Hc; try (destruct k; discriminate);
    injection Hk as <-; vm_compute in Ht; injection Ht as <-;
    cbn in Hc; destruct Hc as [<- | [<- | []]]; cbn; lia.
Defined.

(** X4: the exception of a station's trace is not caught: no network is
    returned when any trace raises, and [generate_network] raises the
    exception of the first station, in table order, whose trace does. *)
Theorem failing_trace_discards_network (band : DataArray Z)
  (reservoirs : list Station) (elevation_raster : option (DataArray Q))
  (raster : DataArray Z) (k : nat) (row : Station) (t : Trace) (ex : Exception) :
  reservoir_location_raster band reservoirs = Ok raster ->
  nth_error reservoirs k = Some row ->
  trace_node band raster (trace_fuel band) row = Some t ->
  outcome t = Raise ex ->
  (forall net, generate_network band reservoirs elevation_raster <> Some (Ok net))
  /\ ((forall j rowj tj,
          (j < k)%nat -> nth_error reservoirs j = Some rowj ->
          trace_node band raster (trace_fuel band) rowj = Some tj ->
          exists e, outcome tj = Ok e) ->
      generate_network band reservoirs elevation_raster = Some (Raise ex)).
Proof.
  intros Hr Hk Ht Ho. split.
  - intros net. eapply raising_trace_no_network; eassumption.
  - intros Hbefore. unfold generate_network. rewrite Hr. cbv zeta.
    now rewrite (trace_nodes_first_failure band raster reservoirs _ 0 k row t ex
                   Hk Ht Ho Hbefore).
Qed.

Lemma failing_trace_discards_network_witness :
  generate_network east_row [station "A" 0 0; station "B" 1 0] None
  = Some (Raise IndexError).
Proof.
  refine (proj2 (failing_trace_discards_network east_row
                   [station "A" 0 0; station "B" 1 0] None
                   (raster_of east_row [station "A" 0 0; station "B" 1 0])
                   1 (station "B" 1 0)
                   (mkTrace 1 [(1, 0); (2, 0)] (Raise IndexError))
                   IndexError eq_refl eq_refl eq_refl eq_refl) _).
  intros [| j] rowj tj Hlt Hj Ht; [| lia].
  injection Hj as <-. vm_compute in Ht. injection Ht as <-.
  eexists. reflexivity.
Defined.

End TraceEnds.

Section TraceOutcomes.

Import GenerateNetwork Inputs.
Open Scope Z_scope.

Lemma operations_None (code : Z) :
  operations code = None <-> code < 1 \/ 8 < code.
Proof.
  split.
  - destruct code as [| p | p]; [lia | | lia].
    do 4 (try destruct p as [p | p |]); cbn; try discriminate; lia.
  - intros H. destruct code as [| p | p]; [reflexivity | | reflexivity].
    do 4 (try destruct p as [p | p |]); cbn; try reflexivity; lia.
Qed.

(** X5: a trace whose next position is new and lies outside the raw
    positions the raster accepts, at or beyond the size of an axis or
    below its negative, raises [IndexError] on that position, and
    [generate_network] returns no network. *)
Theorem off_grid_step_raises (band : DataArray Z) (reservoirs : list Station)
  (elevation_raster : option (DataArray Q)) (raster : DataArray Z)
  (k : nat) (row : Station) (pix : Z) (s : TraceState) (dy dx : Z) :
  reservoir_location_raster band reservoirs = Ok raster ->
  nth_error reservoirs k = Some row ->
  isel band (fst (snap band row)) (snd (snap band row)) = Ok (Some pix) ->
  reaches band raster (start_state band row pix) s ->
  operations (current_pix s) = Some (dy, dx) ->
  ~ In (idxx s + dx, idxy s + dy) (visited s) ->
  (idxx s + dx < - size_x band \/ size_x band <= idxx s + dx
   \/ idxy s + dy < - size_y band \/ size_y band <= idxy s + dy) ->
  (exists t,
      trace_node band raster (trace_fuel band) row = Some t
      /\ outcome t = Raise IndexError
      /\ cells t = visited s ++ [(idxx s + dx, idxy s + dy)])
  /\ forall net,
      generate_network band reservoirs elevation_raster <> Some (Ok net).
Proof.
  intros Hr Hk Hstart Hreach Hop Hnew Hout.
  assert (Hstep : step band raster s
                  = Throw (visited s ++ [(idxx s + dx, idxy s + dy)]) IndexError).
  { apply step_off_grid_raises; try assumption. unfold in_box. cbn. lia. }
  destruct (trace_node_through_throw _ _ _ _ _ _ _ Hstart Hreach Hstep)
    as (t & Ht & Ho & Hc).
  split; [exists t; auto |].
  intros net. eapply raising_trace_no_network; eassumption.
Qed.

Lemma off_grid_step_raises_witness :
  exists t,
    trace_node east_row (raster_of east_row [station "A" 0 0])
      (trace_fuel east_row) (station "A" 0 0) = Some t
    /\ outcome t = Raise IndexError
    /\ cells t = [(0, 0); (1, 0); (2, 0)].
Proof.
  refine (proj1 (off_grid_step_raises east_row [station "A" 0 0] None
                   (raster_of east_row [station "A" 0 0])
                   0 (station "A" 0 0) 3 (mkState 1 0 [(0, 0); (1, 0)] 3) 0 1
                   eq_refl eq_refl eq_refl _ eq_refl _ _)).
  - eapply reaches_next; [reflexivity | apply reaches_here].
  - cbn. intros [H | [H | []]]; discriminate.
  - right. left. cbn. lia.
Defined.

(** X6: a trace that stands on a cell whose value is not one of the
    codes 1 to 8, the starting cell included, raises [KeyError], and
    [generate_network] returns no network. *)
Theorem invalid_code_raises_KeyError (band : DataArray Z)
  (reservoirs : list Station) (elevation_raster : option (DataArray Q))
  (raster : DataArray Z) (k : nat) (row : Station) (pix : Z) (s : TraceState) :
  reservoir_location_raster band reservoirs = Ok raster ->
  nth_error reservoirs k = Some row ->
  isel band (fst (snap band row)) (snd (snap band row)) = Ok (Some pix) ->
  reaches band raster (start_state band row pix) s ->
  current_pix s < 1 \/ 8 < current_pix s ->
  (exists t,
      trace_node band raster (trace_fuel band) row = Some t
      /\ outcome t = Raise KeyError /\ cells t = visited s)
  /\ forall net,
      generate_network band reservoirs elevation_raster <> Some (Ok net).
Proof.
  intros Hr Hk Hstart Hreach Hcode.
  assert (Hstep : step band raster s = Throw (visited s) KeyError).
  { unfold step. apply operations_None in Hcode. now rewrite Hcode. }
  destruct (trace_node_through_throw _ _ _ _ _ _ _ Hstart Hreach Hstep)
    as (t & Ht & Ho & Hc).
  split; [exists t; auto |].
  intros net. eapply raising_trace_no_network; eassumption.
Qed.

Lemma invalid_code_raises_KeyError_witness :
  exists t,
    trace_node with_sink (raster_of with_sink [station "A" 0 0])
      (trace_fuel with_sink) (station "A" 0 0) = Some t
    /\ outcome t = Raise KeyError /\ cells t = [(0, 0); (1, 0)].
Proof.
  refine (proj1 (invalid_code_raises_KeyError with_sink [station "A" 0 0] None
                   (raster_of with_sink [station "A" 0 0])
                   0 (station "A" 0 0) 3 (mkState 1 0 [(0, 0); (1, 0)] 0)
                   eq_refl eq_refl eq_refl _ _)).
  - eapply reaches_next; [reflexivity | apply reaches_here].
  - left. cbn. lia.
Defined.

(** X7: a trace whose next position is new, holds a direction code and
    holds the id [r] in the location raster ends there with the edge to
    [r]: in the returned graph the station's only outgoing edge goes to
    [r]. *)
Theorem reservoir_reached_adds_edge (band : DataArray Z)
  (reservoirs : list Station) (elevation_raster : option (DataArray Q))
  (raster : DataArray Z) (k : nat) (row : Station) (pix : Z) (s : TraceState)
  (dy dx pix' r : Z) :
  reservoir_location_raster band reservoirs = Ok raster ->
  nth_error reservoirs k = Some row ->
  isel band (fst (snap band row)) (snd (snap band row)) = Ok (Some pix) ->
  reaches band raster (start_state band row pix) s ->
  operations (current_pix s) = Some (dy, dx) ->
  ~ In (idxx s + dx, idxy s + dy) (visited s) ->
  isel band (idxx s + dx) (idxy s + dy) = Ok (Some pix') ->
  isel raster (idxx s + dx) (idxy s + dy) = Ok (Some r) ->
  (exists t,
      trace_node band raster (trace_fuel band) row = Some t
      /\ outcome t = Ok (edge_to r)
      /\ cells t = visited s ++ [(idxx s + dx, idxy s + dy)])
  /\ forall net,
      generate_network band reservoirs elevation_raster = Some (Ok net) ->
      out_edges (graph net) (Z.of_nat k) = [(Z.of_nat k, r)].
Proof.
  intros Hr Hk Hstart Hreach Hop Hnew Hband Hres.
  assert (Hstep : step band raster s
                  = Break (visited s ++ [(idxx s + dx, idxy s + dy)]) (edge_to r)).
  { unfold step. rewrite Hop. apply in_visited_not_In in Hnew.
    now rewrite Hnew, Hband, Hres. }
  destruct (trace_node_through _ _ _ _ _ _ _ Hstart Hreach Hstep)
    as (t & Ht & Ho & Hc).
  split; [exists t; auto |].
  intros net Hnet.
  destruct (generate_network_out_edges _ _ _ _ _ _ _ Hnet Hr Hk)
    as (t' & e & Ht' & Ho' & Hout).
  assert (t' = t) by congruence. subst t'.
  assert (e = edge_to r) by congruence. now subst e.
Qed.

Lemma reservoir_reached_adds_edge_witness :
  out_edges
    (graph (network_of confluence
              [station "A" 0 0; station "B" 1 0; station "C" 2 0] None)) 2
  = [(2, 1)].
Proof.
  refine (proj2 (reservoir_reached_adds_edge confluence
                   [station "A" 0 0; station "B" 1 0; station "C" 2 0] None
                   (raster_of confluence
                      [station "A" 0 0; station "B" 1 0; station "C" 2 0])
                   2 (station "C" 2 0) 7 (mkState 2 0 [(2, 0)] 7) 0 (-1) 7 1
                   eq_refl eq_refl eq_refl _ eq_refl _ eq_refl eq_refl)
            (network_of confluence
               [station "A" 0 0; station "B" 1 0; station "C" 2 0] None)
            eq_refl).
  - apply reaches_here.
  - cbn. intros [H | []]; discriminate.
Defined.

(** X8: the edges of the returned graph join stations of the table:
    source and target are ids between 0 and the number of stations. *)
Theorem edges_join_stations (band : DataArray Z) (reservoirs : list Station)
  (elevation_raster : option (DataArray Q)) (net : Network) (u v : Z) :
  generate_network band reservoirs elevation_raster = Some (Ok net) ->
  In (u, v) (edges (graph net)) ->
  0 <= u < len reservoirs /\ 0 <= v < len reservoirs.
Proof.
  intros Hnet Hin.
  destruct (edge_found_by_trace _ _ _ _ _ _ Hnet Hin)
    as (_ & raster & row & t & mid & last & Hr & Hu & Hrow & _ & _ & _ & Hl & _).
  destruct (proj2 (location_raster_ids _ _ _ Hr) _ _ _ Hl)
    as (j & rowj & -> & Hj & _).
  assert (Hlt1 : (Z.to_nat u < List.length reservoirs)%nat).
  { apply nth_error_Some. congruence. }
  assert (Hlt2 : (j < List.length reservoirs)%nat).
  { apply nth_error_Some. congruence. }
  unfold len. lia.
Qed.

Lemma edges_join_stations_witness :
  0 <= 2 < len [station "A" 0 0; station "B" 1 0; station "C" 2 0]
  /\ 0 <= 1 < len [station "A" 0 0; station "B" 1 0; station "C" 2 0].
Proof.
  refine (edges_join_stations confluence
            [station "A" 0 0; station "B" 1 0; station "C" 2 0] None
            (network_of confluence
               [station "A" 0 0; station "B" 1 0; station "C" 2 0] None)
            2 1 eq_refl _).
  vm_compute. tauto.
Defined.

End TraceOutcomes.

Section NodeTable.

Import GenerateNetwork Inputs.
Open Scope Z_scope.

Lemma has_node_In (G : GeoDiGraph) (n : Z) :
  has_node G n = true <-> In n (map fst (nodes G)).
Proof.
  unfold has_node. rewrite existsb_exists, in_map_iff. split.
  - intros [p [Hp E]]. apply Z.eqb_eq in E. eauto.
  - intros [p [E Hp]]. exists p. split; [assumption | now apply Z.eqb_eq].
Qed.

Lemma pending_nodes_ids (rows : list Station) :
  forall node p, In p (pending_nodes node rows) ->
                 node <= fst p < node + len rows.
Proof.
  unfold len. induction rows as [| row rest IH]; intros node p; cbn [pending_nodes].
  - intros [].
  - cbn [List.length]. intros [<- | Hp]; [cbn; lia |].
    apply IH in Hp. lia.
Qed.

Lemma pending_nodes_has (rows : list Station) :
  forall node r, node <= r < node + len rows ->
                 In r (map fst (pending_nodes node rows)).
Proof.
  unfold len. induction rows as [| row rest IH]; intros node r Hr; cbn in *; [lia |].
  destruct (Z.eq_dec r node) as [-> | N]; [now left | right].
  apply IH. lia.
Qed.

(** [add_nodes_from] on the ids of the table, which are distinct. *)
Lemma nodes_add_nodes_from (rows : list Station) :
  forall (G : GeoDiGraph) (n : nat),
    (forall p, In p (nodes G) -> fst p < Z.of_nat n) ->
    nodes (fold_left add_node (map Z.of_nat (seq n (List.length rows))) G)
    = nodes G ++ pending_nodes (Z.of_nat n) rows.
Proof.
  induction rows as [| row rest IH]; intros G n Hlow; cbn.
  - now rewrite app_nil_r.
  - assert (Hnew : has_node G (Z.of_nat n) = false).
    { destruct (has_node G (Z.of_nat n)) eqn:E; [| reflexivity].
      apply has_node_In, in_map_iff in E as [p [E Hp]].
      apply Hlow in Hp. lia. }
    unfold add_node at 2. rewrite Hnew. rewrite IH.
    + cbn. rewrite <- app_assoc. cbn. do 3 f_equal. lia.
    + cbn. intros p Hp. apply in_app_iff in Hp as [Hp | [<- | []]].
      * apply Hlow in Hp. lia.
      * cbn. lia.
Qed.

Lemma nodes_set_node_attributes (pre : list (Z * option NodeAttrs))
  (node : Z) (a : NodeAttrs) (rest : list Station) (G : GeoDiGraph) :
  nodes G = pre ++ (node, None) :: pending_nodes (node + 1) rest ->
  (forall p, In p pre -> fst p < node) ->
  nodes (set_node_attributes G node a)
  = (pre ++ [(node, Some a)]) ++ pending_nodes (node + 1) rest.
Proof.
  intros HG Hpre. unfold set_node_attributes. cbn. rewrite HG, map_app. cbn.
  rewrite Z.eqb_refl, <- app_assoc. cbn. f_equal; [| f_equal].
  - rewrite <- (map_id pre) at 2. apply map_ext_in. intros p Hp.
    apply Hpre in Hp. destruct (fst p =? node) eqn:E; [| reflexivity].
    apply Z.eqb_eq in E. lia.
  - rewrite <- (map_id (pending_nodes (node + 1) rest)) at 2.
    apply map_ext_in. intros p Hp. apply pending_nodes_ids in Hp.
    destruct (fst p =? node) eqn:E; [| reflexivity].
    apply Z.eqb_eq in E. lia.
Qed.

Lemma nodes_add_edge_present (G : GeoDiGraph) (u v : Z) :
  has_node G u = true -> has_node G v = true ->
  nodes (add_edge G u v) = nodes G.
Proof.
  intros Hu Hv. unfold add_edge, add_node. rewrite Hu, Hv.
  now destruct (has_edge G u v).
Qed.

(** The target of a trace's edge is the id of a station. *)
Lemma trace_edge_target_station (band : DataArray Z) (reservoirs : list Station)
  (raster : DataArray Z) (fuel : nat) (row : Station) (t : Trace) (r : Z) :
  reservoir_location_raster band reservoirs = Ok raster ->
  trace_node band raster fuel row = Some t ->
  outcome t = Ok (edge_to r) ->
  0 <= r < len reservoirs.
Proof.
  intros Hr Ht Ho. rewrite trace_node_unfold in Ht.
  destruct (isel band _ _) as [[pix |] | ex].
  - destruct (while_not_END_edge _ _ _ _ _ _ Ht Ho) as (mid & last & _ & Hl & _).
    destruct (proj2 (location_raster_ids _ _ _ Hr) _ _ _ Hl)
      as (j & rowj & -> & Hj & _).
    assert ((j < List.length reservoirs)%nat) by (apply nth_error_Some; congruence).
    unfold len. lia.
  - injection Ht as <-. discriminate.
  - injection Ht as <-. discriminate.
Qed.

(** The node entries after the stations were traced: each station's
    entry carries its attributes, in table order. *)
Lemma trace_nodes_nodes (band raster : DataArray Z) (fuel : nat)
  (rows : list Station) :
  forall (G G' : GeoDiGraph) (node : Z) (pre : list (Z * option NodeAttrs))
         (hi : Z),
    trace_nodes band raster fuel G node rows = Some (Ok G') ->
    nodes G = pre ++ pending_nodes node rows ->
    (forall p, In p pre -> 0 <= fst p < node) ->
    0 <= node -> hi = node + len rows ->
    (forall row t r,
        In row rows -> trace_node band raster fuel row = Some t ->
        outcome t = Ok (edge_to r) -> 0 <= r < hi) ->
    (forall r, 0 <= r < node -> In r (map fst pre)) ->
    nodes G' = pre ++ map with_attrs (station_nodes node rows).
Proof.
  induction rows as [| row rest IH];
    intros G G' node pre hi H HG Hpre Hnode Hhi Htarget Hall; cbn in H.
  - injection H as <-. exact HG.
  - destruct (trace_node band raster fuel row) as [t |] eqn:Et; [| discriminate].
    destruct (outcome t) as [e | ex] eqn:Eo; [| discriminate].
    cbn [pending_nodes] in HG. cbn [station_nodes map].
    unfold len in Hhi. cbn [List.length] in Hhi.
    pose proof (nodes_set_node_attributes pre node
                  (mkNodeAttrs (lon row) (lat row) (name row)) rest G HG
                  (fun p Hp => proj2 (Hpre p Hp))) as H1.
    assert (H2 : nodes (after_station G node row e)
                 = (pre ++ [(node, Some (mkNodeAttrs (lon row) (lat row) (name row)))])
                   ++ pending_nodes (node + 1) rest).
    { unfold after_station. destruct e as [| r]; [exact H1 |].
      rewrite nodes_add_edge_present; [exact H1 | |].
      - apply has_node_In. rewrite H1, !map_app. cbn.
        apply in_app_iff. left. apply in_app_iff. right. now left.
      - apply has_node_In. rewrite H1, !map_app. cbn.
        specialize (Htarget row t r (or_introl eq_refl) Et Eo).
        destruct (Z_lt_ge_dec r node) as [Hlt | Hge].
        + apply in_app_iff. left. apply in_app_iff. left. apply Hall. lia.
        + destruct (Z.eq_dec r node) as [-> | N].
          * apply in_app_iff. left. apply in_app_iff. right. now left.
          * apply in_app_iff. right. apply pending_nodes_has. unfold len. lia. }
    rewrite (IH _ _ _ _ hi H H2).
    + now rewrite <- app_assoc.
    + intros p Hp. apply in_app_iff in Hp as [Hp | [<- | []]].
      * apply Hpre in Hp. lia.
      * cbn. lia.
    + lia.
    + unfold len. lia.
    + intros row' t' r' Hin. apply Htarget. now right.
    + intros r Hr. rewrite map_app. cbn.
      destruct (Z.eq_dec r node) as [-> | N].
      * apply in_app_iff. right. now left.
      * apply in_app_iff. left. apply Hall. lia.
Qed.

Lemma graph_nodes_to_gdf_with_attrs (G : GeoDiGraph) (pts : list (Z * NodeAttrs)) :
  nodes G = map with_attrs pts -> graph_nodes_to_gdf G = pts.
Proof.
  unfold graph_nodes_to_gdf. intros ->.
  induction pts as [| [k a] rest IH]; [reflexivity |]. cbn. now rewrite IH.
Qed.

(** The node table of a returned network. *)
Lemma generate_network_node_table (band : DataArray Z) (reservoirs : list Station)
  (elevation_raster : option (DataArray Q)) (net : Network) :
  generate_network band reservoirs elevation_raster = Some (Ok net) ->
  nodes (graph net) = map with_attrs (station_nodes 0 reservoirs).
Proof.
  intros Hnet.
  destruct (generate_network_Ok_inv _ _ _ _ Hnet) as (raster & Hr & Htr).
  apply (trace_nodes_nodes band raster _ _ _ _ 0 [] (len reservoirs) Htr).
  - unfold add_nodes_from, index_of.
    rewrite (nodes_add_nodes_from reservoirs (mkGraph [] []) 0); [reflexivity |].
    intros p [].
  - intros p [].
  - lia.
  - lia.
  - intros row t r _ Ht Ho. exact (trace_edge_target_station _ _ _ _ _ _ _ Hr Ht Ho).
  - intros r Hr'. lia.
Qed.

End NodeTable.

Section ElevationSampling.

Import GenerateNetwork Inputs.
Open Scope Z_scope.

(** C7, as the code has it: with a station table that is not empty and
    an elevation raster that has labels on both axes, the sampling raises
    nothing wherever the nodes lie, since the nearest indexer maps every
    coordinate to a closest label of the axis; each node gets the value
    of that cell. No bounds are checked, and an exception the sampling
    does raise leaves [generate_network], as the [KeyError] on the node
    table of an empty station table does. *)
Theorem elevation_sampling_takes_nearest_cell (band : DataArray Z)
  (reservoirs : list Station) (elev : DataArray Q) (net : Network) :
  generate_network band reservoirs None = Some (Ok net) ->
  (reservoirs <> [] -> ys elev <> [] -> xs elev <> [] ->
   generate_network band reservoirs (Some elev)
   = Some (Ok (mkNetwork (graph net)
                 (Some (map (fun p =>
                               values elev
                                 (get_indexer (ys elev) (attr_y (snd p)))
                                 (get_indexer (xs elev) (attr_x (snd p))))
                            (graph_nodes_to_gdf (graph net))))))
   /\ forall q : Q,
       (exists v,
           nth_error (xs elev) (Z.to_nat (get_indexer (xs elev) q)) = Some v
           /\ forall a, In a (xs elev) -> (dist v q <= dist a q)%Q)
       /\ (exists v,
              nth_error (ys elev) (Z.to_nat (get_indexer (ys elev) q)) = Some v
              /\ forall a, In a (ys elev) -> (dist v q <= dist a q)%Q))
  /\ (forall ex,
         sample_elevation elev (graph_nodes_to_gdf (graph net)) = Raise ex ->
         generate_network band reservoirs (Some elev) = Some (Raise ex))
  /\ (reservoirs = [] ->
      generate_network band reservoirs (Some elev) = Some (Raise KeyError)).
Proof.
  intros Hnet.
  pose proof (graph_nodes_to_gdf_with_attrs _ _
                (generate_network_node_table _ _ _ _ Hnet)) as Hg.
  rewrite (generate_network_with_elevation _ _ elev _ Hnet).
  split; [| split].
  - intros Hres Hy Hx. split.
    + rewrite sample_elevation_total; try assumption; [reflexivity |].
      rewrite Hg. destruct reservoirs; [congruence | discriminate].
    + intros q. split; now apply get_indexer_nearest.
  - intros ex ->. reflexivity.
  - intros ->. rewrite Hg. reflexivity.
Qed.

Lemma elevation_sampling_takes_nearest_cell_witness :
  generate_network back_and_forth [station "A" 0 0] (Some far_elevation)
  = Some (Ok (mkNetwork
                (graph (network_of back_and_forth [station "A" 0 0] None))
                (Some [Some (100 # 1)%Q]))).
Proof.
  refine (proj1 (proj1 (elevation_sampling_takes_nearest_cell back_and_forth
                          [station "A" 0 0] far_elevation
                          (network_of back_and_forth [station "A" 0 0] None)
                          eq_refl) _ _ _)); discriminate.
Defined.

End ElevationSampling.

Section Tables.

Import GenerateNetwork Inputs.
Open Scope Z_scope.

Lemma station_nodes_ids (rows : list Station) :
  forall n : nat,
    map fst (station_nodes (Z.of_nat n) rows)
    = map Z.of_nat (seq n (List.length rows)).
Proof.
  induction rows as [| row rest IH]; intros n; [reflexivity |].
  cbn. f_equal. rewrite <- IH. do 2 f_equal. lia.
Qed.

(** X9: the node table of a returned network has one row per station,
    in table order: the station's position as id, its longitude as [x],
    its latitude as [y] and its name; tracing adds no node and leaves no
    node without attributes. *)
Theorem node_table_lists_stations (band : DataArray Z) (reservoirs : list Station)
  (elevation_raster : option (DataArray Q)) (net : Network) :
  generate_network band reservoirs elevation_raster = Some (Ok net) ->
  graph_nodes_to_gdf (graph net) = station_nodes 0 reservoirs
  /\ map fst (nodes (graph net)) = index_of reservoirs
  /\ forall k row,
      nth_error reservoirs k = Some row ->
      nth_error (graph_nodes_to_gdf (graph net)) k
      = Some (Z.of_nat k, mkNodeAttrs (lon row) (lat row) (name row)).
Proof.
  intros Hnet. pose proof (generate_network_node_table _ _ _ _ Hnet) as Hn.
  pose proof (graph_nodes_to_gdf_with_attrs _ _ Hn) as Hg.
  split; [exact Hg | split].
  - rewrite Hn, map_map. unfold index_of.
    rewrite <- (station_nodes_ids reservoirs 0). reflexivity.
  - rewrite Hg. clear. intros k row.
    change 0 with (Z.of_nat 0) at 1.
    replace (Z.of_nat k) with (Z.of_nat (0 + k)) by reflexivity.
    generalize 0%nat as n. revert k.
    induction reservoirs as [| r rest IH]; intros k n Hk.
    + destruct k; discriminate.
    + destruct k as [| k]; cbn in Hk |- *.
      * injection Hk as ->. now rewrite Nat.add_0_r.
      * replace (Z.of_nat n + 1) with (Z.of_nat (S n)) by lia.
        rewrite (IH k (S n) Hk). do 3 f_equal. lia.
Qed.

Lemma node_table_lists_stations_witness :
  graph_nodes_to_gdf
    (graph (network_of confluence
              [station "A" 0 0; station "B" 1 0; station "C" 2 0] None))
  = station_nodes 0 [station "A" 0 0; station "B" 1 0; station "C" 2 0].
Proof.
  exact (proj1 (node_table_lists_stations confluence
                  [station "A" 0 0; station "B" 1 0; station "C" 2 0] None
                  (network_of confluence
                     [station "A" 0 0; station "B" 1 0; station "C" 2 0] None)
                  eq_refl)).
Defined.

(** X10: the location raster has the axes of the flow-direction raster,
    and a cell of it holds no-data exactly when no station of the table
    snaps to it. *)
Theorem location_raster_no_data_cells (band : DataArray Z)
  (reservoirs : list Station) (raster : DataArray Z) :
  reservoir_location_raster band reservoirs = Ok raster ->
  ys raster = ys band /\ xs raster = xs band
  /\ forall x y,
      0 <= x < size_x band -> 0 <= y < size_y band ->
      (isel raster x y = Ok None
       <-> forall k row, nth_error reservoirs k = Some row ->
                         snap band row <> (x, y)).
Proof.
  unfold reservoir_location_raster. intros Hr.
  destruct (snap_stations_axes _ _ _ _ Hr) as [Hys Hxs]. cbn in Hys, Hxs.
  split; [assumption | split; [assumption |]].
  intros x y Hx Hy.
  assert (Hsel : isel raster x y = Ok (values raster y x)).
  { unfold isel, size_y, size_x. rewrite Hys, Hxs.
    fold (size_y band) (size_x band). now rewrite !norm_index_inside. }
  rewrite Hsel.
  destruct (snap_stations_values _ _ _ _ (x, y) Hr) as [H1 H2].
  cbn [fst snd] in H1, H2. split.
  - intros Hnone k row Hk Hc.
    destruct (last_snap Z band (x, y) reservoirs)
      as [Hno | (j & rowj & Hj & Hcj & Hlast)].
    + exact (Hno k row Hk Hc).
    + rewrite (H1 j rowj Hj Hcj Hlast) in Hnone. discriminate.
  - intros Hno. now rewrite (H2 Hno).
Qed.

Lemma location_raster_no_data_cells_witness :
  isel (raster_of confluence [station "A" 0 0; station "C" 2 0]) 1 0 = Ok None.
Proof.
  refine (proj2 (proj2 (proj2 (location_raster_no_data_cells confluence
                                 [station "A" 0 0; station "C" 2 0]
                                 (raster_of confluence
                                    [station "A" 0 0; station "C" 2 0])
                                 eq_refl)) 1 0 _ _) _).
  - cbn. lia.
  - cbn. lia.
  - intros [| [| k]] row Hk; try (destruct k; discriminate);
      injection Hk as <-; discriminate.
Defined.

Lemma snap_stations_Ok (rows : list Station) :
  forall (raster : DataArray Z) (resid : Z),
    ys raster <> [] -> xs raster <> [] ->
    exists raster', snap_stations raster resid rows = Ok raster'.
Proof.
  induction rows as [| row rest IH]; intros raster resid Hy Hx; cbn; eauto.
  unfold setitem, size_y, size_x.
  rewrite !norm_index_inside by (now apply get_indexer_range). cbn.
  apply IH; assumption.
Qed.

(** X11: on a flow-direction raster with at least one row and one
    column no station is rejected for its position: the nearest cell is
    always inside the raster, so building the location raster raises
    nothing and the lookup of the starting cell succeeds, however far
    from the raster the station lies. *)
Theorem stations_always_snap (band : DataArray Z) (reservoirs : list Station) :
  ys band <> [] -> xs band <> [] ->
  (exists raster, reservoir_location_raster band reservoirs = Ok raster)
  /\ forall row : Station,
      0 <= fst (snap band row) < size_x band
      /\ 0 <= snd (snap band row) < size_y band
      /\ isel band (fst (snap band row)) (snd (snap band row))
         = Ok (values band (snd (snap band row)) (fst (snap band row))).
Proof.
  intros Hy Hx. split.
  - unfold reservoir_location_raster. now apply snap_stations_Ok.
  - intros row. destruct (snap_inside band row Hy Hx) as [H1 H2].
    repeat split; try lia.
    unfold isel. now rewrite !norm_index_inside.
Qed.

Lemma stations_always_snap_witness :
  isel east_row
    (fst (snap east_row (mkStation "far" (1000 # 1) (- (1000 # 1)))))
    (snd (snap east_row (mkStation "far" (1000 # 1) (- (1000 # 1)))))
  = Ok (Some 3).
Proof.
  refine (proj2 (proj2 (proj2 (stations_always_snap east_row [] _ _)
                          (mkStation "far" (1000 # 1) (- (1000 # 1))))));
    discriminate.
Defined.

Lemma sample_rows_Forall2 (elev : DataArray Q) (rows : list Station) :
  forall (node : Z) (col : list (option Q)),
    sample_rows elev (station_nodes node rows) = Ok col ->
    Forall2 (fun row e => sel_nearest elev (lon row) (lat row) = Ok e) rows col.
Proof.
  induction rows as [| row rest IH]; intros node col H; cbn in H.
  - injection H as <-. constructor.
  - destruct (sel_nearest elev (lon row) (lat row)) as [e |] eqn:E; [| discriminate].
    cbn in H.
    destruct (sample_rows elev (station_nodes (node + 1) rest)) as [es |] eqn:Es;
      [| discriminate].
    injection H as <-. constructor; [assumption | eapply IH; eassumption].
Qed.

Lemma sample_elevation_Forall2 (elev : DataArray Q) (rows : list Station)
  (node : Z) (col : list (option Q)) :
  sample_elevation elev (station_nodes node rows) = Ok col ->
  Forall2 (fun row e => sel_nearest elev (lon row) (lat row) = Ok e) rows col.
Proof.
  destruct rows as [| row rest]; [discriminate |].
  intros H. apply (sample_rows_Forall2 elev (row :: rest) node col). exact H.
Qed.

(** X12: an elevation raster changes nothing in the graph: a call with
    one returns the graph of the call without, together with an elevation
    column that has one entry per station, in table order, each the
    nearest-cell sample at the station's longitude and latitude. *)
Theorem elevation_leaves_graph (band : DataArray Z) (reservoirs : list Station)
  (elev : DataArray Q) (net' : Network) :
  generate_network band reservoirs (Some elev) = Some (Ok net') ->
  exists col,
    generate_network band reservoirs None
    = Some (Ok (mkNetwork (graph net') None))
    /\ elevation net' = Some col
    /\ Forall2 (fun row e => sel_nearest elev (lon row) (lat row) = Ok e)
         reservoirs col.
Proof.
  intros Hnet.
  pose proof (graph_nodes_to_gdf_with_attrs _ _
                (generate_network_node_table _ _ _ _ Hnet)) as Hg.
  revert Hnet. unfold generate_network.
  destruct (reservoir_location_raster band reservoirs) as [raster | ex];
    [| discriminate].
  cbv zeta.
  destruct (trace_nodes band raster (trace_fuel band)
              (add_nodes_from (mkGraph [] []) (index_of reservoirs)) 0 reservoirs)
    as [[G | ex] |]; try discriminate.
  destruct (sample_elevation elev (graph_nodes_to_gdf G)) as [col |] eqn:Ecol;
    cbn; [| discriminate].
  intros [= <-]. cbn in Hg |- *. exists col. repeat split.
  rewrite Hg in Ecol. eapply sample_elevation_Forall2. exact Ecol.
Qed.

Lemma elevation_leaves_graph_witness :
  exists col,
    generate_network back_and_forth [station "A" 0 0] None
    = Some (Ok (mkNetwork
                  (graph (network_of back_and_forth [station "A" 0 0]
                            (Some far_elevation))) None))
    /\ elevation (network_of back_and_forth [station "A" 0 0] (Some far_elevation))
       = Some col
    /\ Forall2 (fun row e => sel_nearest far_elevation (lon row) (lat row) = Ok e)
         [station "A" 0 0] col.
Proof.
  exact (elevation_leaves_graph back_and_forth [station "A" 0 0] far_elevation
           (network_of back_and_forth [station "A" 0 0] (Some far_elevation))
           eq_refl).
Defined.

End Tables.

(** * Further properties of the surface-area filter *)

Section FilteringRunFacts.

Import SarathFiltering FilteringRun.
Open Scope string_scope.

Variables Table Merged Frame : Type.
Variables read_l8 read_s2 read_sar : string -> Outcome Table.
Variable merge_optical : list Table -> Outcome Table.
Variable merge_and_filter1 : Table -> Table -> Outcome Merged.
Variable filter2_and_3 : string -> Q -> Merged -> Outcome Frame.
Variable concat_frames : list Frame -> Frame.

Let one := one_reservoir read_l8 read_s2 read_sar merge_optical
             merge_and_filter1 filter2_and_3.
Let loop := reservoirs_loop read_l8 read_s2 read_sar merge_optical
              merge_and_filter1 filter2_and_3.
Let call := filtering_call read_l8 read_s2 read_sar merge_optical
              merge_and_filter1 filter2_and_3 concat_frames.

(** What a pass of the loop needed in order to come back with a series. *)
Lemma one_reservoir_returns (satellites : list string) (res_nomArea : list Q)
  (i : nat) (res_name : string) (f : Frame) :
  one satellites res_nomArea i res_name = Returns f ->
  In "s1" satellites
  /\ (In "l8" satellites \/ In "s2" satellites)
  /\ (i < List.length res_nomArea)%nat.
Proof.
  unfold one, one_reservoir.
  destruct (py_in "l8" satellites) eqn:E8;
    destruct (py_in "s2" satellites) eqn:E2;
    destruct (py_in "s1" satellites) eqn:E1;
    repeat match goal with
      | |- context [read_l8 res_name] => destruct (read_l8 res_name)
      | |- context [read_s2 res_name] => destruct (read_s2 res_name)
      | |- context [read_sar res_name] => destruct (read_sar res_name)
      end; cbn; try discriminate;
    repeat match goal with
      | |- context [merge_optical ?l] => destruct (merge_optical l)
      end; cbn; try discriminate;
    repeat match goal with
      | |- context [merge_and_filter1 ?a ?b] => destruct (merge_and_filter1 a b)
      end; cbn; try discriminate;
    (destruct (nth_error res_nomArea i) eqn:En; [| discriminate]);
    intros _;
    (split; [now apply py_in_In |]);
    (split; [rewrite <- !py_in_In; auto |]);
    apply nth_error_Some; congruence.
Qed.

(** The loop, when it comes back: one series per reservoir, appended in
    the order of [res_list], each made with the nominal area at the
    position of its reservoir. *)
Lemma reservoirs_loop_returns (satellites : list string) (res_nomArea : list Q)
  (res_list : list string) :
  forall (i : nat) (data out : list Frame),
    loop satellites res_nomArea i res_list data = Returns out ->
    exists made,
      out = (data ++ made)%list
      /\ List.length made = List.length res_list
      /\ forall k res_name,
          nth_error res_list k = Some res_name ->
          exists f,
            nth_error made k = Some f
            /\ one satellites res_nomArea (i + k) res_name = Returns f.
Proof.
  unfold loop, one.
  induction res_list as [| res_name rest IH]; intros i data out H; cbn in H.
  - injection H as <-. exists []. rewrite app_nil_r.
    repeat split. intros [| k] name Hk; discriminate.
  - destruct (one_reservoir read_l8 read_s2 read_sar merge_optical
                merge_and_filter1 filter2_and_3 satellites res_nomArea i res_name)
      as [f |] eqn:E; [| discriminate].
    cbn in H. destruct (IH _ _ _ H) as (made & -> & Hlen & Hmade).
    exists (f :: made). rewrite <- app_assoc. cbn. repeat split.
    + now rewrite Hlen.
    + intros [| k] name Hk; cbn in Hk |- *.
      * injection Hk as <-. exists f. now rewrite Nat.add_0_r.
      * destruct (Hmade k name Hk) as (f' & H1 & H2). exists f'.
        split; [assumption |]. now rewrite Nat.add_succ_r.
Qed.

Lemma one_reservoir_same_area (satellites : list string)
  (res_nomArea areas : list Q) (i : nat) (res_name : string) :
  nth_error areas i = nth_error res_nomArea i ->
  one satellites areas i res_name = one satellites res_nomArea i res_name.
Proof.
  intros E. unfold one, one_reservoir.
  destruct (py_in "l8" satellites); destruct (py_in "s2" satellites);
    destruct (py_in "s1" satellites);
    repeat match goal with
      | |- context [read_l8 res_name] => destruct (read_l8 res_name)
      | |- context [read_s2 res_name] => destruct (read_s2 res_name)
      | |- context [read_sar res_name] => destruct (read_sar res_name)
      end; cbn; try reflexivity;
    repeat match goal with
      | |- context [merge_optical ?l] => destruct (merge_optical l)
      end; cbn; try reflexivity;
    repeat match goal with
      | |- context [merge_and_filter1 ?a ?b] => destruct (merge_and_filter1 a b)
      end; cbn; try reflexivity;
    now rewrite E.
Qed.

(** Areas appended to [res_nomArea] do not change a loop that came back. *)
Lemma reservoirs_loop_surplus (satellites : list string)
  (res_nomArea more : list Q) (res_list : list string) :
  forall (i : nat) (data out : list Frame),
    loop satellites res_nomArea i res_list data = Returns out ->
    reservoirs_loop read_l8 read_s2 read_sar merge_optical merge_and_filter1
      filter2_and_3 satellites (res_nomArea ++ more)%list i res_list data
    = Returns out.
Proof.
  unfold loop.
  induction res_list as [| res_name rest IH]; intros i data out H; cbn in H |- *;
    [assumption |].
  destruct (one_reservoir read_l8 read_s2 read_sar merge_optical
              merge_and_filter1 filter2_and_3 satellites res_nomArea i res_name)
    as [f |] eqn:E; [| discriminate].
  fold (one satellites res_nomArea i res_name) in E.
  fold (one satellites (res_nomArea ++ more)%list i res_name).
  rewrite (one_reservoir_same_area satellites res_nomArea
             (res_nomArea ++ more)%list i res_name).
  - rewrite E. cbn in H |- *. now apply IH.
  - apply nth_error_app1. now apply one_reservoir_returns in E.
Qed.

Lemma checks_pass (satellites : list string) (res_list : list string)
  (res_nomArea : list Q) :
  In "s1" satellites \/ In "sar" satellites ->
  In "l8" satellites \/ In "l9" satellites \/ In "s2" satellites ->
  call res_list res_nomArea satellites
  = and_then (loop satellites res_nomArea 0%nat res_list [])
      (pd_concat (fun d => Returns (concat_frames d))).
Proof.
  intros Hsar Hopt. unfold call, filtering_call, filtering, assert_.
  assert (Es : py_in "s1" satellites || py_in "sar" satellites = true).
  { apply orb_true_iff. rewrite !py_in_In. exact Hsar. }
  assert (Eo : py_in "l8" satellites || py_in "l9" satellites
               || py_in "s2" satellites = true).
  { rewrite !orb_true_iff, !py_in_In. tauto. }
  rewrite Es, Eo. reflexivity.
Qed.

(** X13: a call of [filtering] that returns a series had a non-empty
    [res_list], 's1' among the satellites and 'l8' or 's2' among them,
    and a nominal area for every reservoir: 'sar' without 's1', or 'l9'
    as the only optical satellite, pass the assertions but never reach
    the end. *)
Theorem filtering_returns_only_if (res_list : list string) (res_nomArea : list Q)
  (satellites : list string) (out : Frame) :
  call res_list res_nomArea satellites = Returns out ->
  res_list <> []
  /\ In "s1" satellites
  /\ (In "l8" satellites \/ In "s2" satellites)
  /\ (List.length res_list <= List.length res_nomArea)%nat.
Proof.
  unfold call, filtering_call, filtering, assert_.
  destruct (py_in "s1" satellites || py_in "sar" satellites); [| discriminate].
  destruct (py_in "l8" satellites || py_in "l9" satellites
            || py_in "s2" satellites); [| discriminate].
  cbn.
  destruct (reservoirs_loop read_l8 read_s2 read_sar merge_optical
              merge_and_filter1 filter2_and_3 satellites res_nomArea 0 res_list [])
    as [data |] eqn:E; [| discriminate].
  cbn. intros Hout.
  destruct (reservoirs_loop_returns _ _ _ _ _ _ E) as (made & -> & Hlen & Hmade).
  cbn in Hout. destruct res_list as [| name rest].
  - destruct made; [discriminate | discriminate].
  - split; [discriminate |].
    destruct (Hmade 0%nat name eq_refl) as (f & _ & Hone).
    destruct (one_reservoir_returns _ _ _ _ _ Hone) as (H1 & H2 & _).
    split; [assumption | split; [assumption |]].
    destruct (Nat.le_gt_cases (List.length (name :: rest)) (List.length res_nomArea))
      as [Hle | Hgt]; [assumption | exfalso].
    destruct (nth_error (name :: rest) (List.length res_nomArea)) as [nm |] eqn:En.
    + destruct (Hmade _ _ En) as (f' & _ & Hone').
      apply one_reservoir_returns in Hone'. cbn in Hone'. lia.
    + apply nth_error_None in En. lia.
Qed.

(** X14: with 'l9' as the only optical satellite the assertions pass, no
    optical table is read, and the first reservoir ends the call with
    the [ValueError] of [pd.concat] on the empty list. *)
Theorem landsat9_alone_raises_ValueError (res_name : string)
  (rest : list string) (res_nomArea : list Q) (satellites : list string) :
  In "l9" satellites -> ~ In "l8" satellites -> ~ In "s2" satellites ->
  In "s1" satellites \/ In "sar" satellites ->
  (In "s1" satellites -> exists t, read_sar res_name = Returns t) ->
  call (res_name :: rest) res_nomArea satellites
  = Raises (ValueError "No objects to concatenate").
Proof.
  intros H9 H8 H2 Hsar Hread.
  rewrite checks_pass by tauto.
  unfold loop. cbn. unfold one_reservoir.
  apply py_in_not_In in H8, H2. rewrite H8, H2. cbn.
  destruct (py_in "s1" satellites) eqn:E1; [| reflexivity].
  apply py_in_In in E1. destruct (Hread E1) as [t ->]. reflexivity.
Qed.

(** X15: with 'sar' but not 's1' among the satellites the assertions
    pass, the Sentinel-1 table is never read, and once the optical tables
    of the first reservoir are read and merged the call ends with
    [UnboundLocalError] for [res_wa_timeseries_s1]. *)
Theorem sar_without_s1_raises_UnboundLocalError (res_name : string)
  (rest : list string) (res_nomArea : list Q) (satellites : list string) :
  In "sar" satellites -> ~ In "s1" satellites ->
  In "l8" satellites \/ In "s2" satellites ->
  (In "l8" satellites -> exists t, read_l8 res_name = Returns t) ->
  (In "s2" satellites -> exists t, read_s2 res_name = Returns t) ->
  (forall l, l <> [] -> exists t, merge_optical l = Returns t) ->
  call (res_name :: rest) res_nomArea satellites
  = Raises (UnboundLocalError "res_wa_timeseries_s1").
Proof.
  intros Hsar Hs1 Hopt H8 H2 Hmerge.
  rewrite checks_pass by tauto.
  unfold loop. cbn. unfold one_reservoir.
  apply py_in_not_In in Hs1. rewrite Hs1.
  destruct (py_in "l8" satellites) eqn:E8; destruct (py_in "s2" satellites) eqn:E2.
  - destruct H8 as [t8 ->]; [now apply py_in_In |].
    destruct H2 as [t2 ->]; [now apply py_in_In |]. cbn.
    destruct (Hmerge [t8; t2]) as [t ->]; [discriminate | reflexivity].
  - destruct H8 as [t8 ->]; [now apply py_in_In |]. cbn.
    destruct (Hmerge [t8]) as [t ->]; [discriminate | reflexivity].
  - destruct H2 as [t2 ->]; [now apply py_in_In |]. cbn.
    destruct (Hmerge [t2]) as [t ->]; [discriminate | reflexivity].
  - apply py_in_not_In in E8, E2. tauto.
Qed.

(** X16: with an empty [res_list] the assertions are still evaluated
    first, and when they pass the call ends with the [ValueError] of
    [pd.concat] on the empty list of series. *)
Theorem empty_res_list_raises_ValueError (res_nomArea : list Q)
  (satellites : list string) :
  In "s1" satellites \/ In "sar" satellites ->
  In "l8" satellites \/ In "l9" satellites \/ In "s2" satellites ->
  call [] res_nomArea satellites
  = Raises (ValueError "No objects to concatenate").
Proof.
  intros Hsar Hopt. now rewrite checks_pass.
Qed.

(** X17: a call that returns has made one series per reservoir and
    returns their concatenation in the order of [res_list]; the series
    of the reservoir at position [k] is made with the nominal area at
    position [k], and areas beyond the last reservoir are not looked at. *)
Theorem filtering_pairs_reservoirs_with_areas (res_list : list string)
  (res_nomArea : list Q) (satellites : list string) (out : Frame) :
  call res_list res_nomArea satellites = Returns out ->
  exists data,
    out = concat_frames data
    /\ List.length data = List.length res_list
    /\ (forall k res_name,
           nth_error res_list k = Some res_name ->
           exists f,
             nth_error data k = Some f
             /\ one satellites res_nomArea k res_name = Returns f)
    /\ forall more,
        call res_list (res_nomArea ++ more)%list satellites = Returns out.
Proof.
  intros Hcall. assert (Hcall' := Hcall). revert Hcall'.
  unfold call, filtering_call, filtering, assert_.
  destruct (py_in "s1" satellites || py_in "sar" satellites); [| discriminate].
  destruct (py_in "l8" satellites || py_in "l9" satellites
            || py_in "s2" satellites); [| discriminate].
  cbn.
  destruct (reservoirs_loop read_l8 read_s2 read_sar merge_optical
              merge_and_filter1 filter2_and_3 satellites res_nomArea 0 res_list [])
    as [data |] eqn:E; [| discriminate].
  cbn. intros Hout.
  destruct (reservoirs_loop_returns _ _ _ _ _ _ E) as (made & -> & Hlen & Hmade).
  cbn in Hout, E. exists made.
  assert (Hret : out = concat_frames made).
  { destruct made; [discriminate | now injection Hout]. }
  split; [assumption | split; [assumption | split; [exact Hmade |]]].
  intros more.
  rewrite (reservoirs_loop_surplus _ _ more _ _ _ _ E). exact Hout.
Qed.

End FilteringRunFacts.

Section FilteringRunWitnesses.

Import SarathFiltering FilteringRun.
Open Scope string_scope.

Ltac not_listed := let H := fresh in intros H; cbn in H; intuition discriminate.

Lemma filtering_returns_only_if_witness :
  ["dam"] <> []
  /\ In "s1" ["l8"; "s1"]
  /\ (In "l8" ["l8"; "s1"] \/ In "s2" ["l8"; "s1"])
  /\ (List.length ["dam"] <= List.length [5 # 1])%nat.
Proof.
  exact (filtering_returns_only_if nat nat nat
           (fun _ => Returns 1%nat) (fun _ => Returns 1%nat)
           (fun _ => Returns 1%nat) (fun l => Returns (List.length l))
           (fun a b => Returns (a + b)%nat) (fun _ _ m => Returns m)
           (fun d => List.length d)
           ["dam"] [5 # 1] ["l8"; "s1"] 1%nat eq_refl).
Defined.

Lemma landsat9_alone_raises_ValueError_witness :
  toy_call ["dam"] [5 # 1] ["l9"; "s1"]
  = Raises (ValueError "No objects to concatenate").
Proof.
  refine (landsat9_alone_raises_ValueError nat nat nat
            (fun _ => Returns 1%nat) (fun _ => Returns 1%nat)
            (fun _ => Returns 1%nat) (fun l => Returns (List.length l))
            (fun a b => Returns (a + b)%nat) (fun _ _ m => Returns m)
            (fun d => List.length d)
            "dam" [] [5 # 1] ["l9"; "s1"] _ _ _ _ _).
  - cbn. tauto.
  - not_listed.
  - not_listed.
  - left. cbn. tauto.
  - intros _. eexists. reflexivity.
Defined.

Lemma sar_without_s1_raises_UnboundLocalError_witness :
  toy_call ["dam"] [5 # 1] ["l8"; "sar"]
  = Raises (UnboundLocalError "res_wa_timeseries_s1").
Proof.
  refine (sar_without_s1_raises_UnboundLocalError nat nat nat
            (fun _ => Returns 1%nat) (fun _ => Returns 1%nat)
            (fun _ => Returns 1%nat) (fun l => Returns (List.length l))
            (fun a b => Returns (a + b)%nat) (fun _ _ m => Returns m)
            (fun d => List.length d)
            "dam" [] [5 # 1] ["l8"; "sar"] _ _ _ _ _ _).
  - cbn. tauto.
  - not_listed.
  - left. cbn. tauto.
  - intros _. eexists. reflexivity.
  - intros _. eexists. reflexivity.
  - intros l _. eexists. reflexivity.
Defined.

Lemma empty_res_list_raises_ValueError_witness :
  toy_call [] [] ["l8"; "l9"; "s2"; "s1"]
  = Raises (ValueError "No objects to concatenate").
Proof.
  refine (empty_res_list_raises_ValueError nat nat nat
            (fun _ => Returns 1%nat) (fun _ => Returns 1%nat)
            (fun _ => Returns 1%nat) (fun l => Returns (List.length l))
            (fun a b => Returns (a + b)%nat) (fun _ _ m => Returns m)
            (fun d => List.length d)
            [] ["l8"; "l9"; "s2"; "s1"] _ _).
  - left. cbn. tauto.
  - left. cbn. tauto.
Defined.

Lemma filtering_pairs_reservoirs_with_areas_witness :
  exists data,
    2%nat = List.length data
    /\ List.length data = List.length ["dam"; "weir"]
    /\ (forall k res_name,
           nth_error ["dam"; "weir"] k = Some res_name ->
           exists f,
             nth_error data k = Some f
             /\ one_reservoir (fun _ => Returns 1%nat) (fun _ => Returns 1%nat)
                  (fun _ => Returns 1%nat) (fun l => Returns (List.length l))
                  (fun a b => Returns (a + b)%nat) (fun _ _ m => Returns m)
                  ["l8"; "s2"; "s1"] [5 # 1; 7 # 1] k res_name = Returns f)
    /\ forall more,
        toy_call ["dam"; "weir"] ([5 # 1; 7 # 1] ++ more)%list ["l8"; "s2"; "s1"]
        = Returns 2%nat.
Proof.
  exact (filtering_pairs_reservoirs_with_areas nat nat nat
           (fun _ => Returns 1%nat) (fun _ => Returns 1%nat)
           (fun _ => Returns 1%nat) (fun l => Returns (List.length l))
           (fun a b => Returns (a + b)%nat) (fun _ _ m => Returns m)
           (fun d => List.length d)
           ["dam"; "weir"] [5 # 1; 7 # 1] ["l8"; "s2"; "s1"] 2%nat eq_refl).
Defined.

End FilteringRunWitnesses.

Section SeriesFacts.

Import SarathFiltering FilteringRun.

Lemma str_inj (a b : N) : str a = str b -> a = b.
Proof.
  unfold str. intros H. apply DecimalN.Unsigned.to_uint_inj.
  assert (E : Some (N.to_uint a) = Some (N.to_uint b)).
  { rewrite <- !DecimalString.NilEmpty.usu. now rewrite H. }
  now injection E.
Qed.

Lemma append_inj_length (s1 : string) :
  forall s2 t1 t2 : string,
    String.length s1 = String.length s2 ->
    (s1 ++ t1)%string = (s2 ++ t2)%string -> s1 = s2 /\ t1 = t2.
Proof.
  induction s1 as [| c s1 IH]; intros [| c2 s2] t1 t2 Hlen H; cbn in *;
    try discriminate; [now split |].
  injection H as -> H. injection Hlen as Hlen.
  destruct (IH _ _ _ Hlen H) as [-> ->]. now split.
Qed.

Lemma str_four_digits (y : N) :
  (1000 <= y <= 9999)%N -> String.length (str y) = 4%nat.
Proof.
  intros Hy.
  assert (Hall : forallb (fun n => Nat.eqb (String.length (str (N.of_nat n))) 4)
                   (seq (N.to_nat 1000) (N.to_nat 9000)) = true)
    by (vm_compute; reflexivity).
  rewrite forallb_forall in Hall.
  rewrite <- (N2Nat.id y). apply Nat.eqb_eq, Hall, in_seq. lia.
Qed.

(** X18: for years written with four digits, all the years a pandas
    timestamp can hold, the key of the monthly groups tells year and
    month apart: two dates share a key only when they share both. *)
Theorem YearMonth_injective (y1 m1 y2 m2 : N) :
  (1000 <= y1 <= 9999)%N -> (1000 <= y2 <= 9999)%N ->
  YearMonth y1 m1 = YearMonth y2 m2 -> y1 = y2 /\ m1 = m2.
Proof.
  intros H1 H2 H. unfold YearMonth in H.
  apply append_inj_length in H as [Hy Hm].
  - split; now apply str_inj.
  - now rewrite !str_four_digits.
Qed.

Lemma YearMonth_injective_witness : 2020%N = 2020%N /\ 11%N = 11%N.
Proof.
  apply (YearMonth_injective 2020 11 2020 11); [lia | lia | reflexivity].
Defined.

Open Scope Z_scope.

Lemma diff_days_accumulate (dates : list Z) :
  forall (prev : Z) (i : nat) (d : Z),
    nth_error dates i = Some d ->
    d = prev + sum (firstn (S i) (diff_days prev dates)).
Proof.
  induction dates as [| d0 rest IH]; intros prev i d H.
  - destruct i; discriminate.
  - destruct i as [| i]; cbn in H.
    + injection H as <-. cbn. lia.
    + specialize (IH d0 i d H). cbn [diff_days firstn sum fold_right] in *.
      unfold sum in IH. lia.
Qed.

Lemma length_diff_days (dates : list Z) :
  forall prev, List.length (diff_days prev dates) = List.length dates.
Proof.
  induction dates as [| d rest IH]; intros prev; cbn; [reflexivity |].
  now rewrite IH.
Qed.

(** X19: the column of elapsed days has one entry per row, starts with
    zero, and adds up: the day of any row is the day of the first row
    plus the elapsed days up to and including that row. *)
Theorem days_passed_accumulate (dates : list Z) :
  List.length (days_passed dates) = List.length dates
  /\ (forall d0 rest, dates = d0 :: rest -> hd_error (days_passed dates) = Some 0)
  /\ forall (i : nat) (d : Z),
      nth_error dates i = Some d ->
      d = hd 0 dates + sum (firstn (S i) (days_passed dates)).
Proof.
  destruct dates as [| d0 rest]; cbn [days_passed].
  - repeat split; try discriminate. intros [| i] d H; discriminate.
  - split; [cbn; now rewrite length_diff_days | split; [reflexivity |]].
    intros [| i] d H; cbn in H.
    + injection H as <-. cbn. lia.
    + pose proof (diff_days_accumulate rest d0 i d H) as E.
      cbn [hd firstn sum fold_right] in *. unfold sum in E. lia.
Qed.

Lemma days_passed_accumulate_witness :
  18266 = hd 0 [18262; 18264; 18266; 18274]
          + sum (firstn 3 (days_passed [18262; 18264; 18266; 18274])).
Proof.
  exact (proj2 (proj2 (days_passed_accumulate [18262; 18264; 18266; 18274]))
           2%nat 18266 eq_refl).
Defined.

End SeriesFacts.

Section Handler.

Import GenerateNetwork Inputs.
Open Scope Z_scope.

(** X21: with the location raster that [generate_network] builds, the
    [except IndexError] clause of the loop never handles anything: a pass
    ends the trace without an edge only because the next position was
    already visited or because its cell is no-data. *)
Theorem except_clause_never_runs (band : DataArray Z) (reservoirs : list Station)
  (raster : DataArray Z) (s : TraceState) (v : list (Z * Z)) :
  reservoir_location_raster band reservoirs = Ok raster ->
  step band raster s = Break v no_edge ->
  exists dy dx,
    operations (current_pix s) = Some (dy, dx)
    /\ ((In (idxx s + dx, idxy s + dy) (visited s) /\ v = visited s)
        \/ (isel band (idxx s + dx) (idxy s + dy) = Ok None
            /\ v = visited s ++ [(idxx s + dx, idxy s + dy)])).
Proof.
  intros Hr. unfold reservoir_location_raster in Hr.
  destruct (snap_stations_axes _ _ _ _ Hr) as [Hys Hxs]. cbn in Hys, Hxs.
  unfold step.
  destruct (operations (current_pix s)) as [[dy dx] |]; [| discriminate].
  intros Hstep. exists dy, dx. split; [reflexivity |]. revert Hstep.
  destruct (in_visited _ _) eqn:Ev.
  - intros [= <-]. left. split; [now apply in_visited_In | reflexivity].
  - destruct (isel band _ _) as [[pix |] | ex] eqn:Eb; try discriminate.
    + destruct (location_lookup_never_raises band reservoirs raster _ _ _
                  Hys Hxs Eb) as [r Er].
      rewrite Er. destruct r; discriminate.
    + intros [= <-]. right. split; reflexivity.
Qed.

Lemma except_clause_never_runs_witness :
  exists dy dx,
    operations 7 = Some (dy, dx)
    /\ ((In (1 + dx, 0 + dy) [(0, 0); (1, 0)] /\ [(0, 0); (1, 0)] = [(0, 0); (1, 0)])
        \/ (isel back_and_forth (1 + dx) (0 + dy) = Ok None
            /\ [(0, 0); (1, 0)] = [(0, 0); (1, 0)] ++ [(1 + dx, 0 + dy)])).
Proof.
  exact (except_clause_never_runs back_and_forth [station "A" 0 0]
           (raster_of back_and_forth [station "A" 0 0])
           (mkState 1 0 [(0, 0); (1, 0)] 7) [(0, 0); (1, 0)] eq_refl eq_refl).
Defined.

End Handler.
